(** * web-lead-generator: the scraper's persistence, extraction and crawl logic

    A shallow embedding of [scraper/google_scraper.py] (the list-page
    scraper), [scraper/google_scraper_v2.py] and
    [scraper/general_business/general_business_scraper.py] (the click-through
    scrapers).  The browser and the database are collaborators: every call the
    code makes on them takes its outcome (a value, or an exception) from an
    explicit world argument, the scraper object is an explicit state, and
    [try]/[except]/[finally] are combinators of a state-and-exception monad. *)

From Stdlib Require Import Bool Arith ZArith QArith Lia List Ascii String.
From Stdlib Require Import DecimalString.
Import ListNotations.
Local Open Scope string_scope.
Local Open Scope nat_scope.
Local Open Scope list_scope.

(** ** Python primitives *)

Module Py.

(** Exceptions that the code distinguishes: [except PlaywrightTimeout] and
    [except Exception].  Interruption of the process is not modelled. *)
Inductive exn : Type :=
| PlaywrightTimeout
| Error (msg : string).

Inductive result (A : Type) : Type :=
| Ok (a : A)
| Raise (e : exn).
Arguments Ok {A} a.
Arguments Raise {A} e.

(** A computation on the object state [S] that returns or raises. *)
Definition M (S A : Type) : Type := S -> result A * S.

Definition ret {S A} (a : A) : M S A := fun s => (Ok a, s).
Definition raise {S A} (e : exn) : M S A := fun s => (Raise e, s).
Definition bind {S A B} (c : M S A) (k : A -> M S B) : M S B :=
  fun s => match c s with
           | (Ok a, s') => k a s'
           | (Raise e, s') => (Raise e, s')
           end.
Definition modify {S} (f : S -> S) : M S unit := fun s => (Ok tt, f s).
Definition lift {S A} (r : result A) : M S A := fun s => (r, s).
Definition gets {S A} (f : S -> A) : M S A := fun s => (Ok (f s), s).

(** [try: body except Exception as e: handler e] *)
Definition try_except {S A} (body : M S A) (handler : exn -> M S A) : M S A :=
  fun s => match body s with
           | (Ok a, s') => (Ok a, s')
           | (Raise e, s') => handler e s'
           end.

(** [try: body finally: fin]: [fin] runs on both exits; when it raises, its
    exception replaces the outcome of [body]. *)
Definition try_finally {S A} (body : M S A) (fin : M S unit) : M S A :=
  fun s => match body s with
           | (r, s') => match fin s' with
                        | (Ok _, s'') => (r, s'')
                        | (Raise e, s'') => (Raise e, s'')
                        end
           end.

(** Truth value of [d.get(key)] for a string-valued key: [None] and [''] are
    false. *)
Definition truthy (o : option string) : bool :=
  match o with
  | Some s => negb (String.eqb s "")
  | None => false
  end.

(** [s.split(sep)] for a one-character separator. *)
Fixpoint split (sep : ascii) (s : string) : list string :=
  match s with
  | EmptyString => [EmptyString]
  | String c s' =>
      if Ascii.eqb c sep then EmptyString :: split sep s'
      else match split sep s' with
           | w :: ws => String c w :: ws
           | [] => [String c EmptyString]
           end
  end.

(** [l[0]]: [IndexError] on the empty list. *)
Definition item0 {A} (l : list A) : result A :=
  match l with
  | x :: _ => Ok x
  | [] => Raise (Error "IndexError")
  end.

Definition is_space (c : ascii) : bool :=
  let n := nat_of_ascii c in
  ((9 <=? n) && (n <=? 13)) || ((28 <=? n) && (n <=? 32)).

Fixpoint lstrip (s : string) : string :=
  match s with
  | String c s' => if is_space c then lstrip s' else s
  | EmptyString => EmptyString
  end.

Fixpoint rstrip (s : string) : string :=
  match s with
  | String c s' =>
      match rstrip s' with
      | EmptyString => if is_space c then EmptyString else String c EmptyString
      | t => String c t
      end
  | EmptyString => EmptyString
  end.

(** [s.strip()] *)
Definition strip (s : string) : string := rstrip (lstrip s).

End Py.
Import Py.

Declare Scope py_scope.
Delimit Scope py_scope with py.
Notation "x <- c ;; k" := (bind c (fun x => k))
  (at level 61, c at next level, right associativity) : py_scope.
Notation "c ;; k" := (bind c (fun _ => k))
  (at level 61, right associativity) : py_scope.
Local Open Scope py_scope.

(** ** The scraper object and its collaborators *)

(** The dict built for one business by the extractors. *)
Module Business.
Record t : Type := mk {
  name : option string;
  phone : option string;
  address : option string;
  rating : option Q;
  has_website : bool;
  website_url : option string;
  gbp_url : option string
}.
End Business.

(** A row of the [businesses] table, with the columns the code reads or
    writes; [None] is SQL NULL. *)
Module Businesses.
Record t : Type := mk {
  name : option string;
  phone : option string;
  address : option string;
  city : option string;
  category : option string;
  gbp_url : option string;
  has_website : bool;
  website_url : option string;
  google_rating : option Q;
  last_scraped : option Z
}.
End Businesses.

(** A row of the [scrape_runs] table. *)
Inductive run_status : Type := running | completed | partial | failed.

Module Run.
Record t : Type := mk {
  status : run_status;
  businesses_found : nat;
  businesses_without_websites : nat;
  new_businesses_added : nat;
  error_log : option string
}.
End Run.

(** [self.page], [self.context], [self.browser], [self.db_conn]: [None]
    until initialised, then an open handle, closed by [close()]. *)
Inductive handle : Type := Unset | Open | Closed.

Inductive log_entry : Type :=
| info (msg : string)
| warning (msg : string)
| error (msg : string).

(** Observable actions against the target site, in the order performed. *)
Inductive event : Type :=
| Nav            (* page.goto(search_url) or page.click('a#pnnext') *)
| Wait           (* polite_delay: asyncio.sleep(uniform(DELAY_MIN, DELAY_MAX)) *)
| SessionBreak   (* session_break: the longer sleep *)
| Requery (n : nat)     (* query_selector_all('.rllt__details') gave n elements *)
| Index (i n : nat).    (* current_elements[i] on a collection of n elements *)

Record Scraper : Type := mkScraper {
  page : handle;
  context : handle;
  browser : handle;
  db_conn : handle;
  committed : list Businesses.t;   (* businesses, as of the last commit *)
  working : list Businesses.t;     (* businesses, as the open transaction sees it *)
  scrape_runs : list Run.t;
  businesses_found : nat;
  businesses_without_websites : nat;
  new_businesses_added : nat;
  request_count : nat;
  log : list log_entry;
  trace : list event
}.

Definition set_handles (p c b d : handle) (s : Scraper) : Scraper :=
  mkScraper p c b d (committed s) (working s) (scrape_runs s)
    (businesses_found s) (businesses_without_websites s)
    (new_businesses_added s) (request_count s) (log s) (trace s).
Definition set_working (w : list Businesses.t) (s : Scraper) : Scraper :=
  mkScraper (page s) (context s) (browser s) (db_conn s) (committed s) w
    (scrape_runs s) (businesses_found s) (businesses_without_websites s)
    (new_businesses_added s) (request_count s) (log s) (trace s).
Definition set_committed (c : list Businesses.t) (s : Scraper) : Scraper :=
  mkScraper (page s) (context s) (browser s) (db_conn s) c (working s)
    (scrape_runs s) (businesses_found s) (businesses_without_websites s)
    (new_businesses_added s) (request_count s) (log s) (trace s).
Definition set_scrape_runs (r : list Run.t) (s : Scraper) : Scraper :=
  mkScraper (page s) (context s) (browser s) (db_conn s) (committed s)
    (working s) r (businesses_found s) (businesses_without_websites s)
    (new_businesses_added s) (request_count s) (log s) (trace s).
Definition set_businesses_found (n : nat) (s : Scraper) : Scraper :=
  mkScraper (page s) (context s) (browser s) (db_conn s) (committed s)
    (working s) (scrape_runs s) n (businesses_without_websites s)
    (new_businesses_added s) (request_count s) (log s) (trace s).
Definition set_businesses_without_websites (n : nat) (s : Scraper) : Scraper :=
  mkScraper (page s) (context s) (browser s) (db_conn s) (committed s)
    (working s) (scrape_runs s) (businesses_found s) n
    (new_businesses_added s) (request_count s) (log s) (trace s).
Definition set_new_businesses_added (n : nat) (s : Scraper) : Scraper :=
  mkScraper (page s) (context s) (browser s) (db_conn s) (committed s)
    (working s) (scrape_runs s) (businesses_found s)
    (businesses_without_websites s) n (request_count s) (log s) (trace s).
Definition set_request_count (n : nat) (s : Scraper) : Scraper :=
  mkScraper (page s) (context s) (browser s) (db_conn s) (committed s)
    (working s) (scrape_runs s) (businesses_found s)
    (businesses_without_websites s) (new_businesses_added s) n (log s)
    (trace s).
Definition set_log (l : list log_entry) (s : Scraper) : Scraper :=
  mkScraper (page s) (context s) (browser s) (db_conn s) (committed s)
    (working s) (scrape_runs s) (businesses_found s)
    (businesses_without_websites s) (new_businesses_added s)
    (request_count s) l (trace s).
Definition set_trace (t : list event) (s : Scraper) : Scraper :=
  mkScraper (page s) (context s) (browser s) (db_conn s) (committed s)
    (working s) (scrape_runs s) (businesses_found s)
    (businesses_without_websites s) (new_businesses_added s)
    (request_count s) (log s) t.

Definition logger (e : log_entry) : M Scraper unit :=
  modify (fun s => set_log (log s ++ [e]) s).
Definition emit (e : event) : M Scraper unit :=
  modify (fun s => set_trace (trace s ++ [e]) s).

(** ** save_business: the deduplicating upsert *)

(** What the database does during one [save_business]: the value of
    CURRENT_TIMESTAMP, the value the column default gives [last_scraped] on an
    INSERT (the schema is not part of the sources), and which of the calls on
    the connection raise. *)
Record SaveWorld : Type := mkSaveWorld {
  now : Z;
  last_scraped_default : option Z;
  cursor_raises : bool;     (* self.db_conn.cursor() *)
  select_raises : bool;     (* cursor.execute("SELECT id ...") *)
  write_raises : bool;      (* cursor.execute("UPDATE ..." / "INSERT ...") *)
  commit_raises : bool;     (* self.db_conn.commit() *)
  rollback_raises : bool    (* self.db_conn.rollback() *)
}.

Definition db_error : exn := Error "psycopg2.Error".

(** A call on the connection: raises, or has its effect on the state. *)
Definition db_call (raises : bool) (effect : Scraper -> Scraper) : M Scraper unit :=
  fun s => if raises then (Raise db_error, s) else (Ok tt, effect s).

(** SQL [a = b]: never true when either side is NULL. *)
Definition sql_eq (a b : option string) : bool :=
  match a, b with
  | Some x, Some y => String.eqb x y
  | _, _ => false
  end.

(** [location.split(',')[0]] *)
Definition city_of (location : string) : string :=
  match split "," location with
  | c :: _ => c
  | [] => EmptyString
  end.

(** WHERE gbp_url = %s *)
Definition where_gbp_url (business : Business.t) (r : Businesses.t) : bool :=
  sql_eq (Businesses.gbp_url r) (Business.gbp_url business).

(** WHERE name = %s AND city = %s *)
Definition where_name_city (business : Business.t) (location : string) (r : Businesses.t) : bool :=
  sql_eq (Businesses.name r) (Business.name business)
  && sql_eq (Businesses.city r) (Some (city_of location)).

(** [cursor.execute("SELECT id FROM businesses WHERE ..."); cursor.fetchone()] *)
Definition select_one (w : SaveWorld) (cond : Businesses.t -> bool) : M Scraper (option Businesses.t) :=
  fun s => if select_raises w then (Raise db_error, s)
           else (Ok (find cond (working s)), s).

(** UPDATE ... SET name, phone, address, has_website, website_url,
    google_rating, last_scraped = CURRENT_TIMESTAMP *)
Definition set_by_gbp_url (w : SaveWorld) (business : Business.t) (r : Businesses.t) : Businesses.t :=
  Businesses.mk (Business.name business) (Business.phone business)
    (Business.address business) (Businesses.city r) (Businesses.category r) (Businesses.gbp_url r)
    (Business.has_website business) (Business.website_url business)
    (Business.rating business) (Some (now w)).

(** UPDATE ... SET phone, address, has_website, website_url, google_rating,
    last_scraped = CURRENT_TIMESTAMP *)
Definition set_by_name_city (w : SaveWorld) (business : Business.t) (r : Businesses.t) : Businesses.t :=
  Businesses.mk (Businesses.name r) (Business.phone business)
    (Business.address business) (Businesses.city r) (Businesses.category r) (Businesses.gbp_url r)
    (Business.has_website business) (Business.website_url business)
    (Business.rating business) (Some (now w)).

Definition update_where (cond : Businesses.t -> bool) (f : Businesses.t -> Businesses.t) (rows : list Businesses.t) : list Businesses.t :=
  map (fun r => if cond r then f r else r) rows.

(** INSERT INTO businesses (name, phone, address, city, category, gbp_url,
    has_website, website_url, google_rating) *)
Definition inserted_row (w : SaveWorld) (business : Business.t) (location category : string) : Businesses.t :=
  Businesses.mk (Business.name business) (Business.phone business)
    (Business.address business) (Some (city_of location)) (Some category)
    (Business.gbp_url business) (Business.has_website business)
    (Business.website_url business) (Business.rating business)
    (last_scraped_default w).

Definition execute_write (w : SaveWorld) (f : list Businesses.t -> list Businesses.t) : M Scraper unit :=
  db_call (write_raises w) (fun s => set_working (f (working s)) s).

Definition commit (w : SaveWorld) : M Scraper unit :=
  db_call (commit_raises w) (fun s => set_committed (working s) s).

Definition rollback (w : SaveWorld) : M Scraper unit :=
  db_call (rollback_raises w) (fun s => set_working (committed s) s).

Definition save_business (w : SaveWorld) (business : Business.t)
    (location category : string) : M Scraper unit :=
  logger (info "Attempting to save") ;;
  try_except
    (db_call (cursor_raises w) (fun s => s) ;;
     existing <-
       (if truthy (Business.gbp_url business)
        then select_one w (where_gbp_url business)
        else select_one w (where_name_city business location)) ;;
     match existing with
     | Some _ =>
         if truthy (Business.gbp_url business)
         then execute_write w
                (update_where (where_gbp_url business) (set_by_gbp_url w business))
         else execute_write w
                (update_where (where_name_city business location)
                   (set_by_name_city w business))
     | None =>
         execute_write w
           (fun rows => rows ++ [inserted_row w business location category]) ;;
         modify (fun s => set_new_businesses_added (S (new_businesses_added s)) s) ;;
         logger (info "Added new business")
     end ;;
     commit w ;;
     if negb (Business.has_website business)
     then modify (fun s =>
            set_businesses_without_websites (S (businesses_without_websites s)) s)
     else ret tt)
    (fun e =>
       logger (error "Error saving business") ;;
       rollback w).

(** ** Regular expressions

    The fragment of Python's [re] that the scrapers' patterns use, with
    Python's backtracking order: quantifiers are greedy, alternatives are
    tried left to right, [search] takes the leftmost start offset.  Text is a
    sequence of bytes (UTF-8); the classes [\d], [\s], [\w] and case folding
    are the ASCII ones. *)

Module Re.

Inductive regex : Type :=
| Lit (s : string)                                   (* literal text *)
| Rep (p : ascii -> bool) (lo : nat) (hi : option nat)
                                                     (* class{lo,hi}, greedy *)
| Seq (r1 r2 : regex)
| Alt (r1 r2 : regex)
| Grp (r : regex)                                    (* ( ... ): group 1 *)
| WordB.                                             (* \b *)

Definition in_range (lo hi : nat) (c : ascii) : bool :=
  let n := nat_of_ascii c in (lo <=? n) && (n <=? hi).

Definition digit : ascii -> bool := in_range 48 57.              (* \d *)
Definition space : ascii -> bool := Py.is_space.                 (* \s *)
Definition word (c : ascii) : bool :=                            (* \w *)
  digit c || in_range 65 90 c || in_range 97 122 c || Ascii.eqb c "_".
Definition ch (c : ascii) : ascii -> bool := Ascii.eqb c.
Definition not_ch (c : ascii) : ascii -> bool := fun d => negb (Ascii.eqb c d).
Definition one_of (cs : list ascii) : ascii -> bool :=
  fun d => existsb (Ascii.eqb d) cs.
Definition dot (c : ascii) : bool := negb (Ascii.eqb c "010").   (* . *)

Definition lower (c : ascii) : ascii :=
  if in_range 65 90 c then ascii_of_nat (nat_of_ascii c + 32) else c.

Definition snoc (s : string) (c : ascii) : string :=
  (s ++ String c EmptyString)%string.

Section Matcher.
Context {R : Type}.
Variable ignorecase : bool.   (* re.IGNORECASE *)

(** A continuation receives the text just consumed, the character before the
    current position, the remaining input and group 1. *)
Definition cont : Type :=
  string -> option ascii -> string -> option string -> option R.

Definition char_eq (a b : ascii) : bool :=
  if ignorecase then Ascii.eqb (lower a) (lower b) else Ascii.eqb a b.

Fixpoint lit (l : string) (acc : string) (prev : option ascii) (s : string)
    (cap : option string) (k : cont) : option R :=
  match l with
  | EmptyString => k acc prev s cap
  | String c l' =>
      match s with
      | String d s' =>
          if char_eq c d then lit l' (snoc acc d) (Some d) s' cap k else None
      | EmptyString => None
      end
  end.

Definition may_take (hi : option nat) : bool :=
  match hi with Some 0 => false | _ => true end.

Fixpoint rep (p : ascii -> bool) (lo : nat) (hi : option nat) (acc : string)
    (prev : option ascii) (s : string) (cap : option string) (k : cont)
    : option R :=
  let stop := if lo =? 0 then k acc prev s cap else None in
  match s with
  | String c s' =>
      if p c && may_take hi then
        match rep p (pred lo) (option_map pred hi) (snoc acc c) (Some c) s' cap k with
        | Some x => Some x
        | None => stop
        end
      else stop
  | EmptyString => stop
  end.

Definition is_word (o : option ascii) : bool :=
  match o with Some c => word c | None => false end.

Definition peek (s : string) : option ascii :=
  match s with String c _ => Some c | EmptyString => None end.

Fixpoint m (r : regex) (prev : option ascii) (s : string)
    (cap : option string) (k : cont) : option R :=
  match r with
  | Lit l => lit l EmptyString prev s cap k
  | Rep p lo hi => rep p lo hi EmptyString prev s cap k
  | Seq r1 r2 =>
      m r1 prev s cap (fun c1 prev1 s1 cap1 =>
        m r2 prev1 s1 cap1 (fun c2 prev2 s2 cap2 =>
          k (c1 ++ c2)%string prev2 s2 cap2))
  | Alt r1 r2 =>
      match m r1 prev s cap k with
      | Some x => Some x
      | None => m r2 prev s cap k
      end
  | Grp r1 => m r1 prev s cap (fun c prev1 s1 _ => k c prev1 s1 (Some c))
  | WordB =>
      if xorb (is_word prev) (is_word (peek s))
      then k EmptyString prev s cap else None
  end.

End Matcher.

(** A match object: [group()] and [group(1)]. *)
Record match_object : Type := mkMatch {
  group0 : string;
  group1 : option string
}.

(** The match that starts at the current position, if there is one. *)
Definition match_here (ignorecase : bool) (r : regex) (prev : option ascii)
    (s : string) : option match_object :=
  m ignorecase r prev s None (fun c _ _ cap => Some (mkMatch c cap)).

Fixpoint search_from (ignorecase : bool) (r : regex) (prev : option ascii)
    (s : string) : option match_object :=
  match match_here ignorecase r prev s with
  | Some x => Some x
  | None =>
      match s with
      | String c s' => search_from ignorecase r (Some c) s'
      | EmptyString => None
      end
  end.

(** [re.search(pattern, s)] and [re.search(pattern, s, re.IGNORECASE)] *)
Definition search (r : regex) (s : string) : option match_object :=
  search_from false r None s.
Definition search_ignorecase (r : regex) (s : string) : option match_object :=
  search_from true r None s.

(** No match of [r] starts at an offset inside [pre] when [pre] is followed
    by [rest]. *)
Fixpoint no_match_in (ignorecase : bool) (r : regex) (prev : option ascii)
    (pre rest : string) : bool :=
  match pre with
  | EmptyString => true
  | String c pre' =>
      match match_here ignorecase r prev (pre ++ rest)%string with
      | Some _ => false
      | None => no_match_in ignorecase r (Some c) pre' rest
      end
  end.

Definition opt (p : ascii -> bool) : regex := Rep p 0 (Some 1).
Definition star (p : ascii -> bool) : regex := Rep p 0 None.
Definition plus (p : ascii -> bool) : regex := Rep p 1 None.
Definition times (n : nat) (p : ascii -> bool) : regex := Rep p n (Some n).

Fixpoint seq (rs : list regex) : regex :=
  match rs with
  | [] => Lit EmptyString
  | [r] => r
  | r :: rs' => Seq r (seq rs')
  end.

Fixpoint alt (r : regex) (rs : list regex) : regex :=
  match rs with
  | [] => r
  | r' :: rs' => Alt r (alt r' rs')
  end.

End Re.

Definition dquote : ascii := "034"%char.


(** ** Field extraction from a detail view
    ([extract_business_details] of general_business_scraper.py; the phone,
    address and rating code of google_scraper_v2.py is the same, up to the
    spelling of the non-ASCII literals of two patterns) *)

(** [str(n)] *)
Definition str (n : nat) : string := NilEmpty.string_of_uint (Nat.to_uint n).

Definition lt_sign : ascii := "<"%char.
Definition gt_sign : ascii := ">"%char.

(** [\(?\d{3}\)?[-.\s]?\d{3}[-.\s]?\d{4}] *)
Definition sep (c : ascii) : bool :=
  Ascii.eqb c "-" || Ascii.eqb c "." || Re.space c.
Definition phone_number : Re.regex :=
  Re.seq [Re.opt (Re.ch "("); Re.times 3 Re.digit; Re.opt (Re.ch ")");
          Re.opt sep; Re.times 3 Re.digit; Re.opt sep; Re.times 4 Re.digit].

(** The tel-link pattern: [href=], a double quote, [tel:], group 1 made of
    one or more characters other than a double quote, a double quote. *)
Definition tel_link : Re.regex :=
  Re.seq [Re.Lit ("href=" ++ String dquote "tel:");
          Re.Grp (Re.plus (Re.not_ch dquote));
          Re.Lit (String dquote EmptyString)].

Definition phone_patterns : list Re.regex :=
  [ tel_link;
    Re.seq [Re.alt (Re.Lit "Phone:") [Re.Lit "Call"; Re.Lit "📞"; Re.Lit "☎️"];
            Re.star Re.space; Re.opt (Re.ch ":"); Re.star Re.space;
            Re.Grp phone_number];
    Re.seq [Re.Lit ">"; Re.star Re.space; Re.Grp phone_number;
            Re.star Re.space; Re.Lit "<"];
    Re.seq [Re.WordB;
            Re.Grp (Re.seq [Re.times 3 Re.digit; Re.opt sep;
                            Re.times 3 Re.digit; Re.opt sep;
                            Re.times 4 Re.digit]);
            Re.WordB] ].

(** [(?:St|Ave|Rd|Blvd|Dr|Way|Ln|Pkwy)] *)
Definition street_suffix : Re.regex :=
  Re.alt (Re.Lit "St")
    [Re.Lit "Ave"; Re.Lit "Rd"; Re.Lit "Blvd"; Re.Lit "Dr"; Re.Lit "Way";
     Re.Lit "Ln"; Re.Lit "Pkwy"].

Definition address_patterns : list Re.regex :=
  [ Re.seq [Re.Lit "<span"; Re.star (Re.not_ch gt_sign); Re.Lit ">";
            Re.Grp (Re.seq [Re.plus (Re.not_ch lt_sign); street_suffix;
                            Re.star (Re.not_ch lt_sign)]);
            Re.Lit "</span>"];
    Re.seq [Re.Lit ">";
            Re.Grp (Re.seq [Re.plus Re.digit; Re.plus (Re.not_ch lt_sign);
                            street_suffix; Re.star (Re.not_ch lt_sign)]);
            Re.Lit "<"] ].

(** The rating pattern, searched with [re.IGNORECASE]: group 1 is [\d+\.?\d*],
    followed by [\s*] and [(?:star|★)]. *)
Definition rating_pattern : Re.regex :=
  Re.seq [Re.Grp (Re.seq [Re.plus Re.digit; Re.opt (Re.ch "."); Re.star Re.digit]);
          Re.star Re.space;
          Re.Alt (Re.Lit "star") (Re.Lit "★")].

(** [for pattern in patterns: match = re.search(pattern, text); if match: ... break] *)
Fixpoint first_search (patterns : list Re.regex) (text : string)
    : option Re.match_object :=
  match patterns with
  | [] => None
  | p :: ps =>
      match Re.search p text with
      | Some mo => Some mo
      | None => first_search ps text
      end
  end.

(** [match.group(1).strip()]: [group(1)] is [None] for a group that took no
    part in the match, and [None.strip()] raises. *)
Definition group1_strip (mo : Re.match_object) : result string :=
  match Re.group1 mo with
  | Some g => Ok (strip g)
  | None => Raise (Error "AttributeError")
  end.

Fixpoint drop_prefix (p s : string) : option string :=
  match p with
  | EmptyString => Some s
  | String c p' =>
      match s with
      | String d s' => if Ascii.eqb c d then drop_prefix p' s' else None
      | EmptyString => None
      end
  end.

(** [re.sub(r'^tel:', '', phone)] *)
Definition sub_tel (phone : string) : string :=
  match drop_prefix "tel:" phone with
  | Some rest => rest
  | None => phone
  end.

Definition extract_phone (page_content : string) : result (option string) :=
  match first_search phone_patterns page_content with
  | Some mo =>
      match group1_strip mo with
      | Ok phone => Ok (Some (sub_tel phone))
      | Raise e => Raise e
      end
  | None => Ok None
  end.

Definition extract_address (page_content : string) : result (option string) :=
  match first_search address_patterns page_content with
  | Some mo =>
      match group1_strip mo with
      | Ok address => Ok (Some address)
      | Raise e => Raise e
      end
  | None => Ok None
  end.

(** Reads a run of decimal digits: its value, its length, and what follows. *)
Fixpoint digits (s : string) (acc : Z) (n : nat) : Z * nat * string :=
  match s with
  | String c s' =>
      if Re.digit c
      then digits s' (10 * acc + Z.of_nat (nat_of_ascii c - 48))%Z (S n)
      else (acc, n, s)
  | EmptyString => (acc, n, s)
  end.

(** [float(token)] on the tokens the rating pattern can capture: digits, an
    optional point, digits.  The float is kept as the exact rational that the
    literal denotes (which [float] rounds to the nearest double); any other
    token is a [ValueError], here [None]. *)
Definition float_of_decimal (token : string) : option Q :=
  let '(ip, ni, rest) := digits token 0%Z 0 in
  match rest with
  | EmptyString => if ni =? 0 then None else Some (ip # 1)
  | String c rest1 =>
      if Ascii.eqb c "."
      then let '(fp, nf, rest2) := digits rest1 0%Z 0 in
           match rest2 with
           | EmptyString =>
               if ni + nf =? 0 then None
               else Some ((ip * 10 ^ Z.of_nat nf + fp) # Z.to_pos (10 ^ Z.of_nat nf))
           | String _ _ => None
           end
      else None
  end.

(** The rating branch: [float(rating_match.group(1))], with [except:] turning
    every failure into [None]. *)
Definition extract_rating (page_content : string) : option Q :=
  match Re.search_ignorecase rating_pattern page_content with
  | Some mo =>
      match Re.group1 mo with
      | Some token =>
          match float_of_decimal token with
          | Some r => Some r
          | None => None
          end
      | None => None
      end
  | None => None
  end.

(** What the browser shows once a listing has been opened. *)
Record DetailWorld : Type := mkDetailWorld {
  main_appears : bool;                 (* wait_for_selector('[role="main"]') *)
  xpdopen_appears : bool;              (* wait_for_selector('.xpdopen') *)
  content : result string;             (* page.content() *)
  website_selectors : list (result bool)
    (* per selector of website_selectors, in order: query_selector(selector)
       found an element *)
}.

Fixpoint website_indicator (found : list (result bool)) : M Scraper bool :=
  match found with
  | [] => logger (info "No website found") ;; ret false
  | Ok true :: _ => logger (info "Found website indicator") ;; ret true
  | Ok false :: rest => website_indicator rest
  | Raise e :: _ => raise e
  end.

(** [extract_business_details] of general_business_scraper.py: presence-only
    website detection; [gbp_url] is set by the caller. *)
Definition extract_business_details (w : DetailWorld) (business_name : string)
    : M Scraper (option Business.t) :=
  try_except
    ((if main_appears w then ret tt
      else if xpdopen_appears w then ret tt
      else raise PlaywrightTimeout) ;;
     page_content <- lift (content w) ;;
     phone <- lift (extract_phone page_content) ;;
     address <- lift (extract_address page_content) ;;
     let rating := extract_rating page_content in
     has_website <-
       try_except (website_indicator (website_selectors w))
         (fun e => ret false) ;;
     logger (info "Extracted") ;;
     ret (Some (Business.mk (Some business_name) phone address rating
                  has_website None None)))
    (fun e =>
       logger (error "Error extracting business details") ;;
       ret None).

(** ** The per-listing loop of the click-through scrapers
    ([search_businesses_and_save] of general_business_scraper.py; the loop of
    [search_businesses] in google_scraper_v2.py has the same header, re-query
    and index guard, and collects where this one saves) *)

(** One element of the re-resolved listing collection, and what the browser
    does when it is opened. *)
Record Listing : Type := mkListing {
  osrxxb_text : option string;   (* inner_text of the '.OSrXXb' node, if any *)
  qbf1pd_text : option string;   (* inner_text of the '.qBF1Pd' node, if any *)
  click_raises : bool;
  url : string;                  (* self.page.url after the click *)
  detail : DetailWorld;
  save : SaveWorld;
  go_back_raises : bool
}.

Record ListingsWorld : Type := mkListingsWorld {
  business_links : nat;                     (* len(business_links) *)
  requery : nat -> result (list Listing)    (* the re-query of iteration i *)
}.

(** [current_elements[i]] *)
Definition index {A} (l : list A) (i : nat) : M Scraper A :=
  emit (Index i (List.length l)) ;;
  match nth_error l i with
  | Some x => ret x
  | None => raise (Error "IndexError")
  end.

Definition query_selector_all (r : result (list Listing)) : M Scraper (list Listing) :=
  current_elements <- lift r ;;
  emit (Requery (List.length current_elements)) ;;
  ret current_elements.

Definition business_name_of (element : Listing) (i : nat) : string :=
  match osrxxb_text element with
  | Some text => text
  | None =>
      match qbf1pd_text element with
      | Some text => text
      | None => ("Business " ++ str (i + 1))%string
      end
  end.

Definition with_gbp_url (business : Business.t) (current_url : string) : Business.t :=
  Business.mk (Business.name business) (Business.phone business)
    (Business.address business) (Business.rating business)
    (Business.has_website business) (Business.website_url business)
    (Some current_url).

(** The loop body once [element = current_elements[i]] is in hand: name,
    click, details, save, back. *)
Definition visit_listing (element : Listing) (location category : string)
    (i : nat) : M Scraper unit :=
  let business_name := business_name_of element i in
  logger (info "Processing business") ;;
  (if click_raises element then raise PlaywrightTimeout else ret tt) ;;
  let current_url := url element in
  business <- extract_business_details (detail element) business_name ;;
  match business with
  | Some b =>
      save_business (save element) (with_gbp_url b current_url)
        location category ;;
      modify (fun s => set_businesses_found (S (businesses_found s)) s)
  | None => ret tt
  end ;;
  (if go_back_raises element then raise PlaywrightTimeout else ret tt).

(** The body of the loop for index [i]; [false] is [break]. *)
Definition process_listing (w : ListingsWorld) (location category : string)
    (i : nat) : M Scraper bool :=
  try_except
    (current_elements <- query_selector_all (requery w i) ;;
     if List.length current_elements <=? i then ret false
     else
       element <- index current_elements i ;;
       visit_listing element location category i ;;
       ret true)
    (fun e => logger (error "Error processing business") ;; ret true).

(** [for i in range(n)] from [i], with [break]. *)
Fixpoint for_range (n i : nat) (body : nat -> M Scraper bool) : M Scraper unit :=
  match n with
  | 0 => ret tt
  | S n' =>
      continue <- body i ;;
      if continue then for_range n' (S i) body else ret tt
  end.

(** [for i in range(min(20, len(business_links))): ...] *)
Definition process_listings (w : ListingsWorld) (location category : string)
    : M Scraper unit :=
  for_range (Nat.min 20 (business_links w)) 0 (process_listing w location category).

(** ** config.py *)

Definition LOCATIONS : list string :=
  ["Shorewood, IL"; "Plainfield, IL"; "Joliet, IL"; "Naperville, IL";
   "Channahon, IL"; "Minooka, IL"].

Definition CATEGORIES : list string :=
  ["restaurant"; "plumber"; "electrician"; "contractor"; "landscaping";
   "auto repair"; "hair salon"; "dentist"; "real estate agent"; "lawyer";
   "accountant"; "insurance agent"].

Definition REQUESTS_PER_SESSION : nat := 10.

(** An entry of SCRAPE_MODES; a key that is absent or [None] is [None]. *)
Record ModeConfig : Type := mkModeConfig {
  mode_locations : option nat;
  mode_categories : option nat;
  mode_max_pages : option nat
}.

Definition test_mode : ModeConfig := mkModeConfig (Some 1) (Some 2) (Some 1).
Definition full_mode : ModeConfig := mkModeConfig None None (Some 5).
Definition debug_mode : ModeConfig := mkModeConfig (Some 1) (Some 1) (Some 2).

(** ** The pacing controller *)

Definition polite_delay : M Scraper unit :=
  logger (info "Waiting before next request") ;;
  emit Wait.

Definition session_break : M Scraper unit :=
  logger (info "Taking a session break") ;;
  emit SessionBreak ;;
  modify (set_request_count 0).

Definition check_session_break : M Scraper unit :=
  modify (fun s => set_request_count (S (request_count s)) s) ;;
  n <- gets request_count ;;
  if REQUESTS_PER_SESSION <=? n then session_break else ret tt.

(** ** The list-page scraper (google_scraper.py) *)

(** [s.split()]: the maximal runs of characters that are not whitespace. *)
Fixpoint split_ws (s : string) (cur : string) : list string :=
  match s with
  | EmptyString =>
      match cur with EmptyString => [] | _ => [cur] end
  | String c s' =>
      if is_space c
      then match cur with
           | EmptyString => split_ws s' EmptyString
           | _ => cur :: split_ws s' EmptyString
           end
      else split_ws s' (Re.snoc cur c)
  end.

Fixpoint filter_string (keep : ascii -> bool) (s : string) : string :=
  match s with
  | EmptyString => EmptyString
  | String c s' =>
      if keep c then String c (filter_string keep s') else filter_string keep s'
  end.

(** One '.rllt__details' element of a results page: what each query on it
    returns. *)
Record Element : Type := mkElement {
  element_raises : bool;                   (* some call on the element raises *)
  name_text : option string;               (* '.OSrXXb' inner_text, if present *)
  inner_text : string;                     (* element.inner_text() *)
  phone_selector_texts : list (option string);
    (* per selector of phone_selectors: inner_text of the node, if present *)
  address_text : option string;
  rating_label : option (option string);
    (* '.yi40Hd' present: its aria-label attribute *)
  href : option string;                    (* closest a: href *)
  dataset_url : option string              (* closest a: dataset.url *)
}.

Record PageWorld : Type := mkPageWorld {
  query_raises : bool;                     (* query_selector_all raises *)
  rllt_details : list Element;             (* '.rllt__details' *)
  data_hveid : list Element                (* '[data-hveid]' *)
}.

(** The result pages of one query, from the one the search lands on. *)
Inductive Pages : Type :=
| LastPage (p : PageWorld)                 (* no 'a#pnnext' *)
| BrokenPage (p : PageWorld)               (* the query for 'a#pnnext' raises *)
| NextPage (p : PageWorld) (click_raises load_raises : bool) (rest : Pages).

Definition current_page (pages : Pages) : PageWorld :=
  match pages with
  | LastPage p => p
  | BrokenPage p => p
  | NextPage p _ _ _ => p
  end.

Record QueryWorld : Type := mkQueryWorld {
  goto_raises : option exn;      (* page.goto raises this *)
  marker_appears : bool;         (* wait_for_selector('.rllt__details') returns *)
  pages : Pages
}.

Inductive browser_start : Type :=
| Started | LaunchRaises | NewContextRaises | InitScriptRaises | NewPageRaises.

Record CloseWorld : Type := mkCloseWorld {
  page_close_raises : bool;
  context_close_raises : bool;
  browser_close_raises : bool;
  db_close_raises : bool
}.

Record RunWorld : Type := mkRunWorld {
  start : browser_start;
  connect_raises : bool;                          (* psycopg2.connect *)
  create_run_raises : bool;
  query : string -> string -> QueryWorld;         (* by location, category *)
  saves : string -> string -> nat -> SaveWorld;   (* and index of the business *)
  update_completed_raises : bool;
  update_failed_raises : bool;
  closing : CloseWorld
}.

Definition str_of_exn (e : exn) : string :=
  match e with
  | PlaywrightTimeout => "Timeout"
  | Error msg => msg
  end.

Section GoogleBusinessScraper.

(** Python's [float] on a string; [None] when it raises [ValueError]. *)
Variable float : string -> option Q.

(** [self.mode_config] *)
Variable mode_config : ModeConfig.

Definition list_phone_patterns : list Re.regex :=
  [ phone_number;
    Re.seq [Re.times 3 Re.digit; Re.times 1 sep; Re.times 3 Re.digit;
            Re.times 1 sep; Re.times 4 Re.digit];
    Re.times 10 Re.digit ].

(** [re.sub(r'[^\d\-() ]', '', phone).strip()] *)
Definition clean_phone (phone : string) : string :=
  strip (filter_string
           (fun c => Re.digit c || Re.one_of ["-"; "("; ")"; " "]%char c) phone).

(** [\d{3}.*\d{3}.*\d{4}] *)
Definition looks_like_phone : Re.regex :=
  Re.seq [Re.times 3 Re.digit; Re.star Re.dot; Re.times 3 Re.digit;
          Re.star Re.dot; Re.times 4 Re.digit].

Fixpoint phone_from_selectors (texts : list (option string)) : option string :=
  match texts with
  | [] => None
  | Some text :: rest =>
      match Re.search looks_like_phone text with
      | Some _ => Some (strip text)
      | None => phone_from_selectors rest
      end
  | None :: rest => phone_from_selectors rest
  end.

Definition element_phone (e : Element) : option string :=
  let phone :=
    match first_search list_phone_patterns (inner_text e) with
    | Some mo => Some (clean_phone (Re.group0 mo))
    | None => None
    end in
  if truthy phone then phone
  else match phone_from_selectors (phone_selector_texts e) with
       | Some p => Some p
       | None => phone
       end.

(** The rating branch: the key is left unset (read back as [None]) when the
    aria-label is missing or empty; [except:] covers [split()[0]] and
    [float]. *)
Definition element_rating (e : Element) : option Q :=
  match rating_label e with
  | Some rating_text =>
      if truthy rating_text then
        match rating_text with
        | Some text =>
            match item0 (split_ws text EmptyString) with
            | Ok token => float token
            | Raise _ => None
            end
        | None => None
        end
      else None
  | None => None
  end.

(** The body of the [try] for one element, up to the [if business['name']]. *)
Definition element_business (e : Element) : result Business.t :=
  if element_raises e then Raise (Error "element")
  else Ok (Business.mk (name_text e) (element_phone e) (address_text e)
             (element_rating e) (truthy (dataset_url e)) (dataset_url e)
             (if truthy (href e) then href e else None)).

Fixpoint extract_elements (elements : list Element) (businesses : list Business.t)
    : M Scraper (list Business.t) :=
  match elements with
  | [] => ret businesses
  | element :: rest =>
      businesses1 <-
        try_except
          (business <- lift (element_business element) ;;
           if truthy (Business.name business)
           then logger (info "Extracted") ;; ret (businesses ++ [business])
           else ret businesses)
          (fun e => logger (error "Error extracting business") ;; ret businesses) ;;
      extract_elements rest businesses1
  end.

Definition extract_businesses_from_page (p : PageWorld) : M Scraper (list Business.t) :=
  (if query_raises p then raise (Error "query_selector_all") else ret tt) ;;
  let business_elements :=
    match rllt_details p with
    | [] => data_hveid p
    | _ => rllt_details p
    end in
  extract_elements business_elements [].

Definition click_next_page (click_raises load_raises : bool) : M Scraper unit :=
  check_session_break ;;
  emit Nav ;;
  (if click_raises then raise PlaywrightTimeout else ret tt) ;;
  (if load_raises then raise PlaywrightTimeout else ret tt).

(** [while page_count < max_pages and await self.has_next_page(): ...], on
    entry to the loop test, the current page being [pages]. *)
Fixpoint more_pages (max_pages page_count : nat) (pages : Pages)
    (all_businesses : list Business.t) : M Scraper (list Business.t) :=
  if page_count <? max_pages then
    match pages with
    | LastPage _ => ret all_businesses
    | BrokenPage _ => raise (Error "query_selector")
    | NextPage _ click_raises load_raises rest =>
        logger (info "Moving to page") ;;
        click_next_page click_raises load_raises ;;
        polite_delay ;;
        more_businesses <- extract_businesses_from_page (current_page rest) ;;
        more_pages max_pages (S page_count) rest (all_businesses ++ more_businesses)
    end
  else ret all_businesses.

Definition search_businesses (w : QueryWorld) (location category : string)
    : M Scraper (list Business.t) :=
  logger (info "Searching") ;;
  try_except
    (check_session_break ;;
     emit Nav ;;
     match goto_raises w with Some e => raise e | None => ret tt end ;;
     polite_delay ;;
     if marker_appears w then
       let max_pages := match mode_max_pages mode_config with
                        | Some n => n
                        | None => 1
                        end in
       businesses <- extract_businesses_from_page (current_page (pages w)) ;;
       all_businesses <- more_pages max_pages 1 (pages w) businesses ;;
       logger (info "Found businesses") ;;
       ret all_businesses
     else
       logger (warning "No results found") ;;
       ret [])
    (fun e =>
       match e with
       | PlaywrightTimeout => logger (error "Timeout searching") ;; ret []
       | Error _ => logger (error "Error searching") ;; ret []
       end).

Definition init_browser (o : browser_start) : M Scraper unit :=
  let launched s := set_handles (page s) (context s) Open (db_conn s) s in
  let contexted s := set_handles (page s) Open Open (db_conn s) s in
  let paged s := set_handles Open Open Open (db_conn s) s in
  match o with
  | LaunchRaises => raise (Error "launch")
  | NewContextRaises => modify launched ;; raise (Error "new_context")
  | InitScriptRaises => modify contexted ;; raise (Error "add_init_script")
  | NewPageRaises => modify contexted ;; raise (Error "new_page")
  | Started => modify paged
  end.

Definition init_database (raises : bool) : M Scraper unit :=
  if raises then raise db_error
  else modify (fun s => set_handles (page s) (context s) (browser s) Open s) ;;
       logger (info "Database connection established").

Definition create_scrape_run (raises : bool) : M Scraper nat :=
  if raises then raise db_error
  else
    run_id <- gets (fun s => List.length (scrape_runs s)) ;;
    modify (fun s => set_scrape_runs (scrape_runs s ++ [Run.mk running 0 0 0 None]) s) ;;
    ret run_id.

Fixpoint replace_nth {A} (n : nat) (x : A) (l : list A) : list A :=
  match l, n with
  | [], _ => []
  | _ :: t, 0 => x :: t
  | h :: t, S n' => h :: replace_nth n' x t
  end.

Definition update_scrape_run (raises : bool) (run_id : nat) (status : run_status)
    (error_log : option string) : M Scraper unit :=
  if raises then raise db_error
  else modify (fun s =>
         set_scrape_runs
           (replace_nth run_id
              (Run.mk status (businesses_found s) (businesses_without_websites s)
                 (new_businesses_added s) error_log)
              (scrape_runs s)) s).

(** [if self.h: self.h.close()] *)
Definition close (h : Scraper -> handle) (closed : Scraper -> Scraper)
    (raises : bool) : M Scraper unit :=
  fun s => match h s with
           | Unset => (Ok tt, s)
           | _ => if raises then (Raise (Error "close"), s) else (Ok tt, closed s)
           end.

Definition cleanup (w : CloseWorld) : M Scraper unit :=
  close page (fun s => set_handles Closed (context s) (browser s) (db_conn s) s)
    (page_close_raises w) ;;
  close context (fun s => set_handles (page s) Closed (browser s) (db_conn s) s)
    (context_close_raises w) ;;
  close browser (fun s => set_handles (page s) (context s) Closed (db_conn s) s)
    (browser_close_raises w) ;;
  close db_conn (fun s => set_handles (page s) (context s) (browser s) Closed s)
    (db_close_raises w).

(** [(given or default)[:cap]], or [given or default] when the cap is [None]. *)
Definition effective (given : option (list string)) (default : list string)
    (cap : option nat) : list string :=
  let l := match given with
           | Some (x :: xs) => x :: xs
           | _ => default
           end in
  match cap with
  | Some n => firstn n l
  | None => l
  end.

(** [for business in businesses: self.save_business(...); self.businesses_found += 1] *)
Fixpoint save_all (w : nat -> SaveWorld) (j : nat) (businesses : list Business.t)
    (location category : string) : M Scraper unit :=
  match businesses with
  | [] => ret tt
  | business :: rest =>
      save_business (w j) business location category ;;
      modify (fun s => set_businesses_found (S (businesses_found s)) s) ;;
      save_all w (S j) rest location category
  end.

Fixpoint for_each {A} (l : list A) (body : A -> M Scraper unit) : M Scraper unit :=
  match l with
  | [] => ret tt
  | x :: rest => body x ;; for_each rest body
  end.

(** The body of the inner loop of [run_scrape] for one pair. *)
Definition scrape_pair (w : RunWorld) (location category : string) : M Scraper unit :=
  businesses <- search_businesses (query w location category) location category ;;
  logger (info "Processing businesses") ;;
  save_all (saves w location category) 0 businesses location category ;;
  polite_delay.

Definition crawl (w : RunWorld) (locations categories : list string) : M Scraper unit :=
  for_each locations (fun location =>
    for_each categories (fun category => scrape_pair w location category)).

Definition run_scrape (w : RunWorld) (locations categories : option (list string))
    : M Scraper unit :=
  init_browser (start w) ;;
  init_database (connect_raises w) ;;
  let locations := effective locations LOCATIONS (mode_locations mode_config) in
  let categories := effective categories CATEGORIES (mode_categories mode_config) in
  logger (info "Starting scrape") ;;
  run_id <- create_scrape_run (create_run_raises w) ;;
  try_finally
    (try_except
       (crawl w locations categories ;;
        update_scrape_run (update_completed_raises w) run_id completed None)
       (fun e =>
          logger (error "Scraping error") ;;
          update_scrape_run (update_failed_raises w) run_id failed
            (Some (str_of_exn e)) ;;
          raise e))
    (cleanup (closing w)).

End GoogleBusinessScraper.


(** ** export_leads.py: the selection of the export query *)

(** The WHERE clause that [export_businesses_without_websites] builds:
    [has_website = false], and [AND city = %s] when a city is given
    ([if city:]).  The ORDER BY and the CSV writing are not modelled. *)
Definition export_where (city : option string) (r : Businesses.t) : bool :=
  negb (Businesses.has_website r)
  && (if truthy city then sql_eq (Businesses.city r) city else true).


(** ** The click-through scraper of general_business_scraper.py: a query
    and a run.  [check_session_break], [polite_delay], [init_browser],
    [init_database], [create_scrape_run], [update_scrape_run] and [cleanup]
    are the same code as in google_scraper.py; its [click_next_page] differs
    by a fixed sleep after the load. *)

Module GeneralBusiness.

(** One results page: whether the queries for [business_links] raise, and
    its listings. *)
Record ResultPage : Type := mkResultPage {
  links_raise : bool;
  listings : ListingsWorld
}.

Inductive ResultPages : Type :=
| FinalPage (p : ResultPage)               (* no 'a#pnnext' *)
| UnreadablePage (p : ResultPage)          (* the query for 'a#pnnext' raises *)
| FollowedPage (p : ResultPage) (click_raises load_raises : bool)
    (rest : ResultPages).

Definition this_page (pages : ResultPages) : ResultPage :=
  match pages with
  | FinalPage p => p
  | UnreadablePage p => p
  | FollowedPage p _ _ _ => p
  end.

Record QueryWorld : Type := mkQueryWorld {
  goto_raises : option exn;
  marker_appears : bool;
  pages : ResultPages
}.

Record RunWorld : Type := mkRunWorld {
  start : browser_start;
  connect_raises : bool;
  create_run_raises : bool;
  query : string -> string -> QueryWorld;
  update_completed_raises : bool;
  update_partial_raises : bool;
  closing : CloseWorld
}.

(** [while page_count < max_pages: ...], on entry to the loop test, the
    current page being [pages]. *)
Fixpoint pages_loop (max_pages page_count : nat) (pages : ResultPages)
    (location category : string) : M Scraper unit :=
  if page_count <? max_pages then
    logger (info "Processing page") ;;
    (if links_raise (this_page pages)
     then raise (Error "query_selector_all") else ret tt) ;;
    logger (info "Found business elements") ;;
    process_listings (listings (this_page pages)) location category ;;
    if S page_count <? max_pages then
      match pages with
      | FinalPage _ => ret tt
      | UnreadablePage _ => raise (Error "query_selector")
      | FollowedPage _ click_raises load_raises rest =>
          logger (info "Moving to page") ;;
          click_next_page click_raises load_raises ;;
          polite_delay ;;
          pages_loop max_pages (S page_count) rest location category
      end
    else ret tt
  else ret tt.

Definition search_businesses_and_save (mode_config : ModeConfig)
    (w : QueryWorld) (location category : string) : M Scraper unit :=
  logger (info "Searching") ;;
  try_except
    (check_session_break ;;
     emit Nav ;;
     match goto_raises w with Some e => raise e | None => ret tt end ;;
     polite_delay ;;
     if marker_appears w then
       let max_pages := match mode_max_pages mode_config with
                        | Some n => n
                        | None => 1
                        end in
       pages_loop max_pages 0 (pages w) location category ;;
       logger (info "Processed businesses")
     else
       logger (warning "No results found"))
    (fun e =>
       match e with
       | PlaywrightTimeout => logger (error "Timeout searching")
       | Error _ => logger (error "Error searching")
       end).

Definition crawl (mode_config : ModeConfig) (w : RunWorld)
    (locations categories : list string) : M Scraper unit :=
  for_each locations (fun location =>
    for_each categories (fun category =>
      search_businesses_and_save mode_config (query w location category)
        location category ;;
      polite_delay)).

Definition run_scrape (mode_config : ModeConfig) (w : RunWorld)
    (locations categories : option (list string)) : M Scraper unit :=
  init_browser (start w) ;;
  init_database (connect_raises w) ;;
  let locations := effective locations LOCATIONS (mode_locations mode_config) in
  let categories := effective categories CATEGORIES (mode_categories mode_config) in
  logger (info "Starting scrape") ;;
  run_id <- create_scrape_run (create_run_raises w) ;;
  try_finally
    (try_except
       (crawl mode_config w locations categories ;;
        update_scrape_run (update_completed_raises w) run_id completed None)
       (fun e =>
          logger (error "Scraping error") ;;
          update_scrape_run (update_partial_raises w) run_id partial
            (Some ("Partial results saved. Error: " ++ str_of_exn e)%string)))
    (cleanup (closing w)).

End GeneralBusiness.

(** * Vocabulary of the properties *)

(** No call of the [try] block of [save_business] raises. *)
Definition quiet (w : SaveWorld) : Prop :=
  cursor_raises w = false /\ select_raises w = false
  /\ write_raises w = false /\ commit_raises w = false.

(** Some call of the [try] block of [save_business] raises. *)
Definition fails (w : SaveWorld) : bool :=
  cursor_raises w || select_raises w || write_raises w || commit_raises w.

(** The lookup key of a business under a location. *)
Definition identity (business : Business.t) (location : string) : Businesses.t -> bool :=
  if truthy (Business.gbp_url business)
  then where_gbp_url business
  else where_name_city business location.


Definition has_comma (s : string) : bool :=
  existsb (Ascii.eqb ",") (list_ascii_of_string s).

(** The scraper as [__init__] leaves it, with an empty database. *)
Definition new_scraper : Scraper :=
  mkScraper Unset Unset Unset Unset [] [] [] 0 0 0 0 [] [].

(** A database that answers every call, at time [t]. *)
Definition db_ok (t : Z) : SaveWorld :=
  mkSaveWorld t (Some t) false false false false false.

(** A database whose connection is lost: the SELECT raises, and so does the
    rollback on the dead connection. *)
Definition connection_lost : SaveWorld :=
  mkSaveWorld 100 None false true false false true.

(** A database that refuses the INSERT or UPDATE (a constraint violation). *)
Definition write_refused : SaveWorld :=
  mkSaveWorld 100 (Some 100%Z) false false true false false.

Definition joes : Business.t :=
  Business.mk (Some "Joe's Pizza") (Some "(815) 555-1234") (Some "12 Main St")
    (Some (45 # 10)) false None (Some "https://www.google.com/maps/place/joes").


Definition corner_cafe : Business.t :=
  Business.mk (Some "Corner Cafe") None None None false None None.

(** [s] between double quotes. *)
Definition quoted (s : string) : string :=
  String dquote (s ++ String dquote EmptyString).

(** The attribute href="tel:+18155551234". *)
Definition tel_href : string := "href=" ++ quoted "tel:+18155551234".

(** A detail view with two tel links, the one of C8 second. *)
Definition two_tel_links : string :=
  "<a href=" ++ quoted "tel:+18155550000" ++ ">Call</a> <a " ++ tel_href ++ ">Call</a>".


(** The index accesses of a trace: [(i, n)] for [current_elements[i]] on a
    collection of [n] elements. *)
Fixpoint accesses (evs : list event) : list (nat * nat) :=
  match evs with
  | [] => []
  | Index i n :: rest => (i, n) :: accesses rest
  | _ :: rest => accesses rest
  end.

(** Every index access comes directly after a re-query, on the collection
    that re-query returned, and is in range; [last] is the length the
    previous event re-queried, if it was a re-query. *)
Fixpoint guard (last : option nat) (evs : list event) : bool :=
  match evs with
  | [] => true
  | Requery n :: rest => guard (Some n) rest
  | Index i m :: rest =>
      match last with
      | Some n => (n =? m) && (i <? m)
      | None => false
      end && guard None rest
  | _ :: rest => guard None rest
  end.

(** A listing that has neither name node. *)
Definition nameless_listing : Listing :=
  mkListing None None false "https://www.google.com/maps/place/abc"
    (mkDetailWorld true false (Ok "<div role=main>Open now</div>") [])
    (db_ok 100) false.

Definition one_nameless_listing : ListingsWorld :=
  mkListingsWorld 1 (fun _ => Ok [nameless_listing]).

(** The four resource handles of the scraper. *)
Definition handles (s : Scraper) : handle * handle * handle * handle :=
  (page s, context s, browser s, db_conn s).

(** What a run persists and counts. *)
Definition store (s : Scraper)
    : list Businesses.t * list Businesses.t * nat * nat * nat :=
  (committed s, working s, businesses_found s, new_businesses_added s,
   businesses_without_websites s).

(** The computation leaves the component [f] of the scraper as it was,
    whether it returns or raises. *)
Definition keeps {A X} (f : Scraper -> X) (c : M Scraper A) : Prop :=
  forall s, f (snd (c s)) = f s.

(** The name of a business is a non-empty string. *)
Definition named (business : Business.t) : Prop :=
  truthy (Business.name business) = true.

(** Pacing of a trace: [None] when a navigation is issued while the previous
    one has not been followed by a wait; otherwise whether the last
    navigation is still waiting for its wait. *)
Fixpoint paced (pending : bool) (evs : list event) : option bool :=
  match evs with
  | [] => Some pending
  | Nav :: rest => if pending then None else paced true rest
  | Wait :: rest => paced false rest
  | _ :: rest => paced pending rest
  end.


(** A results page without listings, a query that lands on it, and a run in
    which every collaborator call succeeds. *)
Definition empty_page : PageWorld := mkPageWorld false [] [].

Definition no_listings : QueryWorld := mkQueryWorld None true (LastPage empty_page).

Definition no_marker : QueryWorld := mkQueryWorld None false (LastPage empty_page).

Definition closes_ok : CloseWorld := mkCloseWorld false false false false.

Definition healthy_run (q : QueryWorld) : RunWorld :=
  mkRunWorld Started false false (fun _ _ => q) (fun _ _ _ => db_ok 100)
    false false closes_ok.

(** A list-page element without a name node. *)
Definition nameless_element : Element :=
  mkElement false None "(815) 555-1234" [] None None None None.


(** The handles after [cleanup] on four open handles. *)
Definition after_cleanup (w : CloseWorld) : handle * handle * handle * handle :=
  if page_close_raises w then (Open, Open, Open, Open)
  else if context_close_raises w then (Closed, Open, Open, Open)
  else if browser_close_raises w then (Closed, Closed, Open, Open)
  else if db_close_raises w then (Closed, Closed, Closed, Open)
  else (Closed, Closed, Closed, Closed).

(** A run whose database cannot be reached, and one whose page refuses to
    close. *)
Definition no_database : RunWorld :=
  mkRunWorld Started true false (fun _ _ => no_listings)
    (fun _ _ _ => db_ok 100) false false closes_ok.

Definition page_stuck : RunWorld :=
  mkRunWorld Started false false (fun _ _ => no_listings)
    (fun _ _ _ => db_ok 100) false false (mkCloseWorld true false false false).


(** A database on which the commit raises, and the rollback returns. *)
Definition commit_refused : SaveWorld :=
  mkSaveWorld 100 (Some 100%Z) false false false true false.

(** Corner Cafe again, this time with its profile URL. *)
Definition corner_cafe_url : Business.t :=
  Business.mk (Some "Corner Cafe") (Some "815-555-0101") None None false None
    (Some "https://www.google.com/maps/place/corner").


(** The navigations and the session breaks of a trace. *)
Fixpoint navs (evs : list event) : nat :=
  match evs with
  | [] => 0
  | Nav :: rest => S (navs rest)
  | _ :: rest => navs rest
  end.

Fixpoint breaks (evs : list event) : nat :=
  match evs with
  | [] => 0
  | SessionBreak :: rest => S (breaks rest)
  | _ :: rest => breaks rest
  end.

(** The computation extends the trace by events that stand in the relation
    [R] with the request counter before and after it, whether it returns or
    raises. *)
Definition follows (R : nat -> list event -> nat -> Prop) {A}
    (c : M Scraper A) : Prop :=
  forall s, exists evs,
    trace (snd (c s)) = trace s ++ evs
    /\ R (request_count s) evs (request_count (snd (c s))).

(** The request counter accounts for the navigations: starting below the
    threshold it ends below it, and every tenth navigation took a break. *)
Definition accounted (n : nat) (evs : list event) (n' : nat) : Prop :=
  n < REQUESTS_PER_SESSION ->
  n + navs evs = REQUESTS_PER_SESSION * breaks evs + n'
  /\ n' < REQUESTS_PER_SESSION.


(** A first results page with one listing, whose next-page link cannot be
    clicked. *)
Definition cafe_element : Element :=
  mkElement false (Some "Corner Cafe") "Corner Cafe (815) 555-0101" [] None
    None None None.

Definition stuck_after_first_page : QueryWorld :=
  mkQueryWorld None true
    (NextPage (mkPageWorld false [cafe_element] []) true false
       (LastPage empty_page)).


(** The ledger row of a run that ended with [status], from the counters of
    the scraper. *)
Definition ledger_row (status : run_status) (error_log : option string)
    (s : Scraper) : Run.t :=
  Run.mk status (businesses_found s) (businesses_without_websites s)
    (new_businesses_added s) error_log.




(** Every match of the pattern sets group 1. *)
Fixpoint captures (r : Re.regex) : bool :=
  match r with
  | Re.Grp _ => true
  | Re.Seq r1 r2 => captures r1 || captures r2
  | Re.Alt r1 r2 => captures r1 && captures r2
  | _ => false
  end.

(** The continuation [k], refusing a match without group 1. *)
Definition only_captured {R} (k : @Re.cont R) : @Re.cont R :=
  fun c prev s cap =>
    match cap with
    | Some _ => k c prev s cap
    | None => None
    end.


(** A run of the general-business scraper in which every listing fails to
    save and to roll back, and one in which the ledger refuses the final
    update. *)
Definition unsaved_listing : Listing :=
  mkListing (Some "Corner Cafe") None false
    "https://www.google.com/maps/place/corner"
    (mkDetailWorld true false (Ok "<div role=main>Open now</div>") [])
    connection_lost false.

Definition unsaved_page : GeneralBusiness.ResultPages :=
  GeneralBusiness.FinalPage
    (GeneralBusiness.mkResultPage false
       (mkListingsWorld 1 (fun _ => Ok [unsaved_listing]))).

Definition general_run (update_completed_raises : bool) : GeneralBusiness.RunWorld :=
  GeneralBusiness.mkRunWorld Started false false
    (fun _ _ => GeneralBusiness.mkQueryWorld None true unsaved_page)
    update_completed_raises false closes_ok.



(** The outcome of the computation and what it persists and counts depend
    on the scraper through [store] alone. *)
Definition store_only {A} (c : M Scraper A) : Prop :=
  forall s t, store s = store t ->
    fst (c s) = fst (c t) /\ store (snd (c s)) = store (snd (c t)).

(** A listing that saves, on a first results page whose next-page link
    cannot be clicked. *)
Definition saved_listing : Listing :=
  mkListing (Some "Corner Cafe") None false
    "https://www.google.com/maps/place/corner"
    (mkDetailWorld true false (Ok "<div role=main>Open now</div>") [])
    (db_ok 100) false.

Definition next_page_stuck : GeneralBusiness.QueryWorld :=
  GeneralBusiness.mkQueryWorld None true
    (GeneralBusiness.FollowedPage
       (GeneralBusiness.mkResultPage false
          (mkListingsWorld 1 (fun _ => Ok [saved_listing])))
       true false
       (GeneralBusiness.FinalPage
          (GeneralBusiness.mkResultPage false
             (mkListingsWorld 0 (fun _ => Ok []))))).

(** * Properties *)

(** ** The upsert *)

Lemma save_business_quiet w business location category s :
  quiet w ->
  exists s',
    save_business w business location category s = (Ok tt, s')
    /\ working s' = committed s'
    /\ committed s' =
         match find (identity business location) (working s) with
         | Some _ =>
             update_where (identity business location)
               (if truthy (Business.gbp_url business)
                then set_by_gbp_url w business
                else set_by_name_city w business)
               (working s)
         | None => working s ++ [inserted_row w business location category]
         end
    /\ new_businesses_added s' =
         match find (identity business location) (working s) with
         | Some _ => new_businesses_added s
         | None => S (new_businesses_added s)
         end
    /\ businesses_found s' = businesses_found s
    /\ trace s' = trace s.
Proof.
  intros (Hc & Hs & Hw & Hm).
  unfold save_business, identity, try_except, bind, select_one, execute_write,
    commit, db_call, logger, modify, ret.
  simpl. rewrite Hc, Hs. simpl.
  destruct (truthy (Business.gbp_url business)); simpl;
    match goal with |- context [find ?c ?l] => destruct (find c l) end;
    simpl; rewrite Hw; simpl; rewrite Hm; simpl;
    destruct (Business.has_website business); simpl;
    eexists; repeat split; reflexivity.
Qed.

Lemma find_all_false {A} (f : A -> bool) (l : list A) :
  (forall x, In x l -> f x = false) -> find f l = None.
Proof.
  induction l as [|a l IH]; simpl; intros H; [reflexivity|].
  rewrite (H a (or_introl eq_refl)). apply IH. intros x Hx. apply H. now right.
Qed.

Lemma find_app_hit {A} (f : A -> bool) (l : list A) (a : A) :
  f a = true -> exists x, find f (l ++ [a]) = Some x.
Proof.
  intros Ha. induction l as [|b l IH]; simpl.
  - rewrite Ha. eauto.
  - destruct (f b); eauto.
Qed.

Lemma update_where_untouched cond f (rows : list Businesses.t) :
  (forall r, In r rows -> cond r = false) -> update_where cond f rows = rows.
Proof.
  unfold update_where. induction rows as [|a l IH]; simpl; intros H; [reflexivity|].
  rewrite (H a (or_introl eq_refl)). f_equal. apply IH. intros x Hx. apply H. now right.
Qed.


Lemma sql_eq_true a b : sql_eq a b = true <-> exists x, a = Some x /\ b = Some x.
Proof.
  destruct a as [x|], b as [y|]; simpl; split; try discriminate.
  - intros H. apply String.eqb_eq in H. subst. eauto.
  - intros (z & Hx & Hy). inversion Hx; inversion Hy; subst. apply String.eqb_refl.
  - intros (z & Hx & Hy). discriminate.
  - intros (z & Hx & Hy). discriminate.
  - intros (z & Hx & Hy). discriminate.
Qed.

Lemma truthy_some u : u <> EmptyString -> truthy (Some u) = true.
Proof.
  intros Hu. simpl. destruct (String.eqb u "") eqn:E; [|reflexivity].
  apply String.eqb_eq in E. contradiction.
Qed.




Ltac caught :=
  eexists; split; [reflexivity|split; [reflexivity|split; [reflexivity|]]];
  intros _; split; [reflexivity|split; [reflexivity|eexists; reflexivity]].

Lemma save_business_returns w business location category s :
  rollback_raises w = false ->
  exists s',
    save_business w business location category s = (Ok tt, s')
    /\ businesses_found s' = businesses_found s
    /\ trace s' = trace s
    /\ (fails w = true ->
        working s' = committed s /\ committed s' = committed s
        /\ exists l, log s' = l ++ [error "Error saving business"]).
Proof.
  intros Hr. destruct w as [t d fc fs fw fm fr]. simpl in Hr. subst fr.
  unfold save_business, fails, try_except, bind, select_one, execute_write,
    commit, rollback, db_call, logger, modify, ret. simpl.
  destruct fc; simpl; [caught|].
  destruct fs; simpl.
  { destruct (truthy (Business.gbp_url business)); simpl; caught. }
  destruct (truthy (Business.gbp_url business)); simpl;
    match goal with |- context [find ?c ?l] => destruct (find c l) end; simpl;
    destruct fw; simpl; try caught;
    destruct fm; simpl; try caught;
    destruct (Business.has_website business); simpl;
    (eexists; split; [reflexivity|split; [reflexivity|split; [reflexivity|]]];
     discriminate).
Qed.

Lemma save_all_returns (w : nat -> SaveWorld) businesses location category :
  (forall i, rollback_raises (w i) = false) ->
  forall j s,
  exists s',
    save_all w j businesses location category s = (Ok tt, s')
    /\ businesses_found s' = businesses_found s + List.length businesses
    /\ trace s' = trace s.
Proof.
  intros Hr. induction businesses as [|b rest IH]; intros j s; simpl.
  - exists s. repeat split. lia.
  - destruct (save_business_returns (w j) b location category s (Hr j))
      as (s1 & H1 & Hf1 & Ht1 & _).
    unfold bind at 1. rewrite H1. unfold bind at 1. unfold modify at 1.
    destruct (IH (S j) (set_businesses_found (S (businesses_found s1)) s1))
      as (s2 & H2 & Hf2 & Ht2).
    exists s2. repeat split; [exact H2| |].
    + rewrite Hf2. simpl. lia.
    + rewrite Ht2. simpl. exact Ht1.
Qed.

(** C2 (as the code has it). A failure of any call inside the [try] of
    [save_business] is caught: the error is logged and the rollback is
    called.  Provided the rollback itself returns, [save_business] returns
    normally with the table as of the last commit, and the loop over the
    businesses of a query runs to its end, counting every business.  (When
    the rollback raises, as on a lost connection, its exception leaves
    [save_business].) *)
Theorem save_business_contains_failures
    (w : nat -> SaveWorld) (j : nat) (business : Business.t)
    (businesses : list Business.t) (location category : string) (s : Scraper) :
  (forall i, rollback_raises (w i) = false) ->
  (exists s',
     save_business (w j) business location category s = (Ok tt, s')
     /\ (fails (w j) = true ->
         working s' = committed s /\ committed s' = committed s
         /\ exists l, log s' = l ++ [error "Error saving business"]))
  /\ (exists s',
        save_all w j businesses location category s = (Ok tt, s')
        /\ businesses_found s' = businesses_found s + List.length businesses).
Proof.
  intros Hr. split.
  - destruct (save_business_returns (w j) business location category s (Hr j))
      as (s' & H & _ & _ & Hf).
    exists s'. split; assumption.
  - destruct (save_all_returns w businesses location category Hr j s)
      as (s' & H & Hf & _).
    exists s'. split; assumption.
Qed.

Lemma save_business_contains_failures_witness :
  let w := fun _ : nat => write_refused in
  (exists s',
     save_business (w 0) joes "Joliet, IL" "restaurant" new_scraper = (Ok tt, s')
     /\ (fails (w 0) = true ->
         working s' = [] /\ committed s' = []
         /\ exists l, log s' = l ++ [error "Error saving business"]))
  /\ (exists s',
        save_all w 0 [joes; corner_cafe] "Joliet, IL" "restaurant" new_scraper = (Ok tt, s')
        /\ businesses_found s' = 2).
Proof.
  intros w.
  apply (save_business_contains_failures w 0 joes [joes; corner_cafe]
           "Joliet, IL" "restaurant" new_scraper).
  intros i. reflexivity.
Defined.

(** C2 as stated fails: when the connection is lost the SELECT raises, the
    handler logs and calls [rollback], which raises in turn, outside any
    [try]; the exception leaves [save_business], and the loop over the
    businesses of the query stops at the first one. *)
Lemma save_business_raises_when_rollback_raises :
  fails connection_lost = true
  /\ fst (save_business connection_lost joes "Joliet, IL" "restaurant" new_scraper)
     = Raise db_error
  /\ fst (save_all (fun _ => connection_lost) 0 [joes; corner_cafe]
            "Joliet, IL" "restaurant" new_scraper) = Raise db_error
  /\ businesses_found
       (snd (save_all (fun _ => connection_lost) 0 [joes; corner_cafe]
               "Joliet, IL" "restaurant" new_scraper)) = 0.
Proof. repeat split; reflexivity. Qed.

(** ** The city of a location *)

Lemma split_head (s : string) :
  exists w ws rest,
    split "," s = w :: ws
    /\ s = (w ++ rest)%string
    /\ (rest = EmptyString \/ exists r, rest = String "," r)
    /\ has_comma w = false.
Proof.
  induction s as [|c s IH]; simpl.
  - exists EmptyString, [], EmptyString. repeat split. now left.
  - destruct (Ascii.eqb_spec c ",") as [->|Hc].
    + exists EmptyString, (split "," s), (String "," s). repeat split.
      right. eauto.
    + destruct IH as (w & ws & rest & Hs & Hw & Hr & Hn). rewrite Hs.
      exists (String c w), ws, rest. repeat split.
      * simpl. now rewrite <- Hw.
      * exact Hr.
      * unfold has_comma in *. cbn [list_ascii_of_string existsb]. rewrite Hn.
        destruct (Ascii.eqb_spec "," c) as [E|E]; [|reflexivity].
        subst. contradiction.
Qed.

Lemma city_of_before_comma (location : string) :
  exists rest,
    location = (city_of location ++ rest)%string
    /\ (rest = EmptyString \/ exists r, rest = String "," r)
    /\ has_comma (city_of location) = false.
Proof.
  destruct (split_head location) as (w & ws & rest & Hs & Hw & Hr & Hn).
  unfold city_of. rewrite Hs. eauto.
Qed.


Lemma find_app_miss {A} (f : A -> bool) (l : list A) (a : A) :
  (forall x, In x l -> f x = false) -> f a = false -> find f (l ++ [a]) = None.
Proof.
  intros Hl Ha. apply find_all_false. intros x Hx.
  apply in_app_or in Hx. destruct Hx as [Hx|[<-|[]]]; auto.
Qed.



(** ** Field extraction *)

Lemma search_from_skips ignorecase r rest :
  forall pre prev,
    Re.no_match_in ignorecase r prev pre rest = true ->
    exists prev',
      Re.search_from ignorecase r prev (pre ++ rest)
      = Re.search_from ignorecase r prev' rest.
Proof.
  induction pre as [|c pre IH]; intros prev H.
  - exists prev. reflexivity.
  - cbn [Re.no_match_in] in H.
    destruct (Re.match_here ignorecase r prev (String c pre ++ rest)) eqn:E;
      [discriminate|].
    destruct (IH (Some c) H) as (prev' & Hp). exists prev'.
    change (String c pre ++ rest)%string with (String c (pre ++ rest)) in *.
    cbn [Re.search_from]. rewrite E. exact Hp.
Qed.

Lemma tel_href_matches prev post :
  Re.search_from false tel_link prev (tel_href ++ post)
  = Some (Re.mkMatch tel_href (Some "+18155551234")).
Proof. vm_compute. reflexivity. Qed.

(** C8 (as the code has it). The tel-link pattern is tried first and
    [re.search] takes its leftmost match: when no tel link starts before
    href="tel:+18155551234" in the content, the extracted phone is
    +18155551234, without the tel: prefix (which group 1 never includes) and
    with the digits 1 815 555 1234. *)
Theorem extract_phone_first_tel_link (pre post : string) :
  Re.no_match_in false tel_link None pre (tel_href ++ post) = true ->
  extract_phone (pre ++ tel_href ++ post) = Ok (Some "+18155551234")
  /\ drop_prefix "tel:" "+18155551234" = None
  /\ filter_string Re.digit "+18155551234" = "18155551234".
Proof.
  intros H. split; [|split; reflexivity].
  destruct (search_from_skips false tel_link (tel_href ++ post) pre None H)
    as (prev' & Hp).
  unfold extract_phone, phone_patterns.
  cbn [first_search]. unfold Re.search.
  rewrite Hp, tel_href_matches. reflexivity.
Qed.

Lemma extract_phone_first_tel_link_witness :
  extract_phone ("<div><a " ++ tel_href ++ ">Call</a></div>") = Ok (Some "+18155551234").
Proof.
  apply (extract_phone_first_tel_link "<div><a " ">Call</a></div>").
  vm_compute. reflexivity.
Defined.

(** C8 as stated fails: a detail view that contains href="tel:+18155551234"
    after another tel link yields the other number. *)
Lemma extract_phone_takes_leftmost_tel_link :
  (exists pre post, two_tel_links = (pre ++ tel_href ++ post)%string)
  /\ extract_phone two_tel_links = Ok (Some "+18155550000").
Proof.
  split.
  - exists ("<a href=" ++ quoted "tel:+18155550000" ++ ">Call</a> <a ")%string,
      ">Call</a>"%string.
    reflexivity.
  - vm_compute. reflexivity.
Qed.





(** ** The per-listing loop *)

Lemma save_business_trace w business location category s :
  trace (snd (save_business w business location category s)) = trace s.
Proof.
  destruct w as [t d fc fs fw fm fr].
  unfold save_business, try_except, bind, select_one, execute_write,
    commit, rollback, db_call, logger, modify, ret. simpl.
  destruct fc, fr; simpl; try reflexivity;
    destruct (truthy (Business.gbp_url business)), fs; simpl; try reflexivity;
    match goal with |- context [find ?c ?l] => destruct (find c l) end; simpl;
    destruct fw; simpl; try reflexivity;
    destruct fm; simpl; try reflexivity;
    destruct (Business.has_website business); reflexivity.
Qed.

Lemma website_indicator_trace found :
  forall s, trace (snd (website_indicator found s)) = trace s.
Proof.
  induction found as [|[[|]|e] rest IH]; intros s; simpl; try reflexivity.
  apply IH.
Qed.

Lemma extract_business_details_returns w business_name s :
  exists business s',
    extract_business_details w business_name s = (Ok business, s')
    /\ trace s' = trace s
    /\ businesses_found s' = businesses_found s
    /\ match business with
       | Some b => Business.name b = Some business_name
       | None => True
       end.
Proof.
  unfold extract_business_details, try_except, bind, lift, logger, modify, ret,
    raise.
  assert (Hw : forall t, exists b t',
             website_indicator (website_selectors w) t = (b, t')
             /\ trace t' = trace t /\ businesses_found t' = businesses_found t).
  { induction (website_selectors w) as [|[[|]|e] rest IH]; intros t; simpl;
      unfold bind, logger, modify, ret, raise; simpl; eauto. }
  destruct (main_appears w), (xpdopen_appears w); simpl;
    try (eexists _, _; repeat split; reflexivity);
    (destruct (content w) as [page_content|e]; simpl;
     [|eexists _, _; repeat split; reflexivity];
     destruct (extract_phone page_content) as [phone|e]; simpl;
     [|eexists _, _; repeat split; reflexivity];
     destruct (extract_address page_content) as [address|e]; simpl;
     [|eexists _, _; repeat split; reflexivity];
     destruct (Hw s) as ([b|e] & t' & Hi & Ht & Hf); rewrite Hi; simpl;
     eexists _, _; (split; [reflexivity|]); simpl; auto).
Qed.

Lemma visit_listing_trace element location category i s :
  trace (snd (visit_listing element location category i s)) = trace s.
Proof.
  unfold visit_listing, bind, logger, modify, ret, raise. simpl.
  destruct (click_raises element); simpl; [reflexivity|].
  match goal with |- context [extract_business_details ?w ?n ?t] =>
    destruct (extract_business_details_returns w n t)
      as (business & s1 & He & Ht & _) end.
  rewrite He. simpl in Ht.
  destruct business as [b|].
  - pose proof (save_business_trace (save element)
                  (with_gbp_url b (url element)) location category s1) as Hs.
    destruct (save_business (save element) (with_gbp_url b (url element))
                location category s1) as [[[]|e] s2]; simpl in *;
      [|congruence].
    destruct (go_back_raises element); simpl; congruence.
  - destruct (go_back_raises element); simpl; congruence.
Qed.

Lemma process_listing_events w location category i s :
  exists c s' evs,
    process_listing w location category i s = (Ok c, s')
    /\ trace s' = trace s ++ evs
    /\ guard None evs = true
    /\ List.length (accesses evs) <= 1
    /\ (c = false -> exists l, requery w i = Ok l /\ List.length l <= i).
Proof.
  unfold process_listing, try_except, bind, query_selector_all, index, lift,
    emit, logger, modify, ret, raise. simpl.
  destruct (requery w i) as [l|e]; simpl.
  2:{ exists true, (set_log (log s ++ [error "Error processing business"]) s), [].
      rewrite app_nil_r. repeat split; auto. discriminate. }
  destruct (List.length l <=? i) eqn:El; simpl.
  { eexists false, _, [Requery (List.length l)].
    repeat split; auto. intros _. exists l. split; [reflexivity|].
    now apply Nat.leb_le. }
  apply Nat.leb_gt in El.
  assert (Hg : guard None [Requery (List.length l); Index i (List.length l)] = true).
  { simpl. rewrite Nat.eqb_refl. apply Nat.ltb_lt in El. now rewrite El. }
  destruct (nth_error l i) as [element|]; simpl.
  - match goal with |- context [visit_listing ?e ?a ?b ?j ?t] =>
      pose proof (visit_listing_trace e a b j t) as Hv;
      destruct (visit_listing e a b j t) as [[[]|ex] s1] end; simpl in *.
    + eexists true, _, _. split; [reflexivity|]. rewrite Hv, <- app_assoc.
      repeat split; auto. discriminate.
    + eexists true, _, _. split; [reflexivity|]. simpl. rewrite Hv, <- app_assoc.
      repeat split; auto. discriminate.
  - eexists true, _, _. split; [reflexivity|]. simpl. rewrite <- app_assoc.
    repeat split; auto. discriminate.
Qed.

Lemma guard_weaken evs last : guard None evs = true -> guard last evs = true.
Proof.
  destruct evs as [|[| | | |] rest]; simpl; auto. discriminate.
Qed.

Lemma guard_app evs1 : forall last evs2,
  guard last evs1 = true -> guard None evs2 = true -> guard last (evs1 ++ evs2) = true.
Proof.
  induction evs1 as [|e evs1 IH]; intros last evs2 H1 H2; simpl.
  - now apply guard_weaken.
  - destruct e; simpl in *; auto.
    apply andb_true_iff in H1. destruct H1 as [Ha Hb]. rewrite Ha. simpl. auto.
Qed.

Lemma accesses_app evs1 evs2 : accesses (evs1 ++ evs2) = accesses evs1 ++ accesses evs2.
Proof.
  induction evs1 as [|e evs1 IH]; simpl; [reflexivity|].
  destruct e; simpl; now rewrite ?IH.
Qed.

Lemma for_range_listings w location category n :
  forall i s,
  exists s' evs,
    for_range n i (process_listing w location category) s = (Ok tt, s')
    /\ trace s' = trace s ++ evs
    /\ guard None evs = true
    /\ List.length (accesses evs) <= n.
Proof.
  induction n as [|n IH]; intros i s; simpl.
  - exists s, []. rewrite app_nil_r. repeat split; auto.
  - destruct (process_listing_events w location category i s)
      as (c & s1 & evs1 & Hp & Ht1 & Hg1 & Ha1 & _).
    unfold bind. rewrite Hp. destruct c.
    + destruct (IH (S i) s1) as (s2 & evs2 & Hf & Ht2 & Hg2 & Ha2).
      exists s2, (evs1 ++ evs2). rewrite Hf, Ht2, Ht1, app_assoc.
      repeat split; [now apply guard_app|].
      rewrite accesses_app, length_app. lia.
    + exists s1, evs1. repeat split; auto. lia.
Qed.

Lemma guard_in_range evs : forall last,
  guard last evs = true -> Forall (fun a => fst a < snd a) (accesses evs).
Proof.
  induction evs as [|e evs IH]; intros last H; simpl; [constructor|].
  destruct e; simpl in *; eauto.
  apply andb_true_iff in H. destruct H as [Ha Hb].
  constructor; [|eauto].
  destruct last as [m|]; [|discriminate].
  apply andb_true_iff in Ha. destruct Ha as [_ Hlt]. now apply Nat.ltb_lt in Hlt.
Qed.

(** C6. The per-listing loop returns, having indexed the listing collection
    at most 20 times (and at most once per business link); every index access
    comes directly after a re-query of the collection, on the collection that
    re-query returned, with the index below its length; and an iteration
    whose re-query returns a collection no longer than the index ends the
    loop without an access. *)
Theorem listings_loop_requeries_and_guards
    (w : ListingsWorld) (location category : string) (s : Scraper) :
  exists s' evs,
    process_listings w location category s = (Ok tt, s')
    /\ trace s' = trace s ++ evs
    /\ guard None evs = true
    /\ Forall (fun a => fst a < snd a) (accesses evs)
    /\ List.length (accesses evs) <= 20
    /\ List.length (accesses evs) <= business_links w
    /\ (forall n i l t,
          requery w i = Ok l -> List.length l <= i ->
          for_range (S n) i (process_listing w location category) t
          = (Ok tt, set_trace (trace t ++ [Requery (List.length l)]) t)).
Proof.
  destruct (for_range_listings w location category
              (Nat.min 20 (business_links w)) 0 s)
    as (s' & evs & Hf & Ht & Hg & Ha).
  exists s', evs. unfold process_listings.
  repeat split; try assumption; try lia.
  - exact (guard_in_range evs None Hg).
  - intros n i l t Hl Hi. simpl.
    unfold bind, process_listing, try_except, bind, query_selector_all, lift,
      emit, modify, ret. rewrite Hl. simpl.
    apply Nat.leb_le in Hi. rewrite Hi. reflexivity.
Qed.

(** ** Frame rules: what a computation leaves untouched *)

Section Keeps.
Context {X : Type} (f : Scraper -> X).

Lemma keeps_ret {A} (a : A) : keeps f (ret a).
Proof. intros s. reflexivity. Qed.

Lemma keeps_raise {A} (e : exn) : keeps f (@raise Scraper A e).
Proof. intros s. reflexivity. Qed.

Lemma keeps_lift {A} (r : result A) : keeps f (lift r).
Proof. intros s. reflexivity. Qed.

Lemma keeps_gets {A} (g : Scraper -> A) : keeps f (gets g).
Proof. intros s. reflexivity. Qed.

Lemma keeps_modify (g : Scraper -> Scraper) :
  (forall s, f (g s) = f s) -> keeps f (modify g).
Proof. intros H s. apply H. Qed.

Lemma keeps_bind {A B} (c : M Scraper A) (k : A -> M Scraper B) :
  keeps f c -> (forall a, keeps f (k a)) -> keeps f (bind c k).
Proof.
  intros Hc Hk s. unfold bind. specialize (Hc s).
  destruct (c s) as [[a|e] s1]; simpl in *; [|exact Hc].
  rewrite <- Hc. apply Hk.
Qed.

Lemma keeps_try_except {A} (body : M Scraper A) (handler : exn -> M Scraper A) :
  keeps f body -> (forall e, keeps f (handler e)) -> keeps f (try_except body handler).
Proof.
  intros Hb Hh s. unfold try_except. specialize (Hb s).
  destruct (body s) as [[a|e] s1]; simpl in *; [exact Hb|].
  rewrite <- Hb. apply Hh.
Qed.

Lemma keeps_db_call (raises : bool) (g : Scraper -> Scraper) :
  (forall s, f (g s) = f s) -> keeps f (db_call raises g).
Proof. intros H s. unfold db_call. destruct raises; simpl; auto. Qed.

End Keeps.

Ltac keeps_step :=
  first
    [ apply keeps_ret | apply keeps_raise | apply keeps_lift | apply keeps_gets
    | apply keeps_bind; [|intros ?]
    | apply keeps_try_except; [|intros ?]
    | apply keeps_modify; intros ?; reflexivity
    | apply keeps_db_call; intros ?; reflexivity
    | assumption
    | match goal with
      | |- keeps _ (if ?b then _ else _) => destruct b
      | |- keeps _ (match ?x with _ => _ end) => destruct x
      end ].

Ltac keeps_tac := repeat keeps_step.

(** ** The list-page scraper: what a query leaves untouched *)

Section NavigationFrame.
Context {X : Type} (f : Scraper -> X).
Hypothesis f_log : forall l s, f (set_log l s) = f s.
Hypothesis f_trace : forall t s, f (set_trace t s) = f s.
Hypothesis f_count : forall n s, f (set_request_count n s) = f s.
Variable float : string -> option Q.
Variable mode_config : ModeConfig.

Ltac frame :=
  repeat first
    [ keeps_step
    | apply keeps_modify; intros ?; solve [auto] ].

Lemma keeps_polite_delay : keeps f polite_delay.
Proof. unfold polite_delay, logger, emit. frame. Qed.

Lemma keeps_check_session_break : keeps f check_session_break.
Proof. unfold check_session_break, session_break, logger, emit. frame. Qed.

Lemma keeps_extract_elements elements :
  forall businesses, keeps f (extract_elements float elements businesses).
Proof.
  induction elements as [|e rest IH]; intros businesses; simpl.
  - apply keeps_ret.
  - unfold logger. frame; apply IH.
Qed.

Lemma keeps_extract_businesses_from_page p :
  keeps f (extract_businesses_from_page float p).
Proof.
  unfold extract_businesses_from_page.
  apply keeps_bind; [frame|intros _]. apply keeps_extract_elements.
Qed.

Lemma keeps_click_next_page click_raises load_raises :
  keeps f (click_next_page click_raises load_raises).
Proof.
  unfold click_next_page, emit.
  apply keeps_bind; [apply keeps_check_session_break|intros _]. frame.
Qed.

Lemma keeps_more_pages max_pages pages :
  forall page_count all_businesses,
    keeps f (more_pages float max_pages page_count pages all_businesses).
Proof.
  induction pages as [p|p|p c l rest IH]; intros page_count all_businesses;
    simpl; destruct (page_count <? max_pages); try apply keeps_ret;
    try apply keeps_raise.
  unfold logger.
  apply keeps_bind; [frame|intros _].
  apply keeps_bind; [apply keeps_click_next_page|intros _].
  apply keeps_bind; [apply keeps_polite_delay|intros _].
  apply keeps_bind; [apply keeps_extract_businesses_from_page|intros more].
  apply IH.
Qed.

Lemma keeps_search_businesses w location category :
  keeps f (search_businesses float mode_config w location category).
Proof.
  unfold search_businesses, logger, emit.
  apply keeps_bind; [frame|intros _].
  apply keeps_try_except; [|intros e; frame].
  apply keeps_bind; [apply keeps_check_session_break|intros _].
  apply keeps_bind; [frame|intros _].
  apply keeps_bind; [frame|intros _].
  apply keeps_bind; [apply keeps_polite_delay|intros _].
  destruct (marker_appears w); [|frame].
  apply keeps_bind; [apply keeps_extract_businesses_from_page|intros b].
  apply keeps_bind; [apply keeps_more_pages|intros a]. frame.
Qed.

End NavigationFrame.

(** ** The list-page scraper: records and pacing of one query *)

Lemma paced_app evs1 : forall b evs2,
  paced b (evs1 ++ evs2)
  = match paced b evs1 with
    | Some b' => paced b' evs2
    | None => None
    end.
Proof.
  induction evs1 as [|e evs1 IH]; intros b evs2; simpl; [reflexivity|].
  destruct e; auto. destruct b; auto.
Qed.

Lemma check_session_break_trace s :
  exists s' evs,
    check_session_break s = (Ok tt, s')
    /\ trace s' = trace s ++ evs
    /\ forall b, paced b evs = Some b.
Proof.
  unfold check_session_break, session_break, bind, modify, gets, logger, emit,
    ret. simpl.
  match goal with |- context [if ?c then _ else _] => destruct c end; simpl.
  - eexists _, [SessionBreak]. repeat split.
  - eexists _, []. rewrite app_nil_r. repeat split.
Qed.

Lemma extract_elements_named float elements :
  forall businesses s,
    Forall named businesses ->
    exists out s',
      extract_elements float elements businesses s = (Ok out, s')
      /\ Forall named out /\ trace s' = trace s.
Proof.
  induction elements as [|e rest IH]; intros businesses s Hb; simpl.
  - exists businesses, s. auto.
  - unfold bind at 1, try_except, bind at 1, lift, element_business.
    destruct (element_raises e); simpl.
    + destruct (IH businesses
                  (set_log (log s ++ [error "Error extracting business"]) s) Hb)
        as (out & s' & H & Hn & Ht).
      exists out, s'. auto.
    + destruct (truthy (name_text e)) eqn:En; simpl.
      * match goal with |- context [extract_elements float rest ?bs ?t] =>
          destruct (IH bs t) as (out & s' & H & Hn & Ht) end.
        { apply Forall_app. split; [exact Hb|]. constructor; [exact En|constructor]. }
        exists out, s'. auto.
      * destruct (IH businesses s Hb) as (out & s' & H & Hn & Ht).
        exists out, s'. auto.
Qed.

Lemma extract_businesses_from_page_named float p s :
  exists r s',
    extract_businesses_from_page float p s = (r, s')
    /\ trace s' = trace s
    /\ forall out, r = Ok out -> Forall named out.
Proof.
  unfold extract_businesses_from_page, bind, raise, ret.
  destruct (query_raises p); simpl.
  - eexists _, _. repeat split. discriminate.
  - match goal with |- context [extract_elements float ?els [] s] =>
      destruct (extract_elements_named float els [] s (Forall_nil _))
        as (out & s' & H & Hn & Ht) end.
    exists (Ok out), s'. repeat split; auto.
    intros out' E. inversion E; subst. exact Hn.
Qed.

Lemma click_next_page_trace click_raises load_raises s :
  exists r s' evs,
    click_next_page click_raises load_raises s = (r, s')
    /\ trace s' = trace s ++ evs
    /\ paced false evs = Some true.
Proof.
  unfold click_next_page, bind.
  destruct (check_session_break_trace s) as (s1 & evs & Hc & Ht & Hp).
  rewrite Hc. unfold emit, modify, raise, ret. simpl.
  destruct click_raises; simpl;
    [|destruct load_raises; simpl];
    eexists _, _, (evs ++ [Nav]); (split; [reflexivity|]); simpl;
    rewrite Ht, <- app_assoc, paced_app, Hp; auto.
Qed.

Lemma polite_delay_trace s :
  exists s', polite_delay s = (Ok tt, s') /\ trace s' = trace s ++ [Wait].
Proof. eexists. split; reflexivity. Qed.

Lemma more_pages_paced float max_pages pages :
  forall page_count all_businesses s,
    Forall named all_businesses ->
    exists r s' evs b,
      more_pages float max_pages page_count pages all_businesses s = (r, s')
      /\ trace s' = trace s ++ evs
      /\ paced false evs = Some b
      /\ forall out, r = Ok out -> b = false /\ Forall named out.
Proof.
  induction pages as [p|p|p c l rest IH]; intros page_count all_businesses s Ha;
    simpl; destruct (page_count <? max_pages);
    try (exists (Ok all_businesses), s, [], false; rewrite app_nil_r;
         do 3 (split; [reflexivity|]);
         intros out E; inversion E; subst; auto; fail).
  - eexists _, _, [], false. rewrite app_nil_r.
    do 3 (split; [reflexivity|]). discriminate.
  - unfold bind at 1. unfold logger at 1, modify at 1.
    unfold bind at 1.
    match goal with |- context [click_next_page c l ?t] =>
      destruct (click_next_page_trace c l t) as (r1 & s1 & evs1 & Hc & Ht1 & Hp1) end.
    rewrite Hc. simpl in Ht1.
    destruct r1 as [[]|e].
    2:{ eexists _, _, evs1, true.
        do 3 (split; [reflexivity || assumption|]). discriminate. }
    unfold bind at 1.
    destruct (polite_delay_trace s1) as (s2 & Hd & Ht2). rewrite Hd.
    unfold bind at 1.
    destruct (extract_businesses_from_page_named float (current_page rest) s2)
      as (r3 & s3 & He & Ht3 & Hn3).
    rewrite He.
    assert (Hpw : paced false (evs1 ++ [Wait]) = Some false).
    { now rewrite paced_app, Hp1. }
    destruct r3 as [more|e].
    2:{ eexists _, _, (evs1 ++ [Wait]), false.
        split; [reflexivity|].
        split; [rewrite Ht3, Ht2, Ht1, <- app_assoc; reflexivity|].
        split; [assumption|discriminate]. }
    destruct (IH (S page_count) (all_businesses ++ more) s3)
      as (r4 & s4 & evs4 & b4 & Hm & Ht4 & Hp4 & Hn4).
    { apply Forall_app. split; [exact Ha|]. now apply Hn3. }
    exists r4, s4, ((evs1 ++ [Wait]) ++ evs4), b4.
    split; [exact Hm|].
    split; [rewrite Ht4, Ht3, Ht2, Ht1, <- !app_assoc; reflexivity|].
    split; [now rewrite paced_app, Hpw|exact Hn4].
Qed.

Lemma search_handler_returns (e : exn) (s : Scraper) :
  exists s',
    match e with
    | PlaywrightTimeout => logger (error "Timeout searching") ;; ret []
    | Error _ => logger (error "Error searching") ;; ret []
    end s = (Ok (@nil Business.t), s')
    /\ trace s' = trace s.
Proof. destruct e; eexists; split; reflexivity. Qed.

Lemma search_businesses_paced float mode_config w location category s :
  exists out s' evs b,
    search_businesses float mode_config w location category s = (Ok out, s')
    /\ trace s' = trace s ++ evs
    /\ paced false evs = Some b
    /\ (b = true -> out = [])
    /\ Forall named out
    /\ (marker_appears w = false -> out = []).
Proof.
  unfold search_businesses.
  unfold bind at 1, logger at 1, modify at 1, try_except.
  unfold bind at 1.
  match goal with |- context [check_session_break ?t] =>
    destruct (check_session_break_trace t) as (s1 & evs0 & Hc & Ht1 & Hp0) end.
  rewrite Hc. simpl in Ht1.
  unfold bind at 1, emit at 1, modify at 1.
  unfold bind at 1.
  assert (Hnav : paced false (evs0 ++ [Nav]) = Some true).
  { rewrite paced_app, Hp0. reflexivity. }
  assert (Hwait : paced false (evs0 ++ [Nav; Wait]) = Some false).
  { rewrite paced_app, Hp0. reflexivity. }
  destruct (goto_raises w) as [e|].
  { unfold raise.
    match goal with |- context [match e with _ => _ end ?t] =>
      destruct (search_handler_returns e t) as (s' & Hh & Hth) end.
    exists [], s', (evs0 ++ [Nav]), true. rewrite Hh.
    split; [reflexivity|].
    split; [rewrite Hth; simpl; rewrite Ht1, <- app_assoc; reflexivity|].
    split; [exact Hnav|]. auto. }
  unfold ret at 1. unfold bind at 1.
  match goal with |- context [polite_delay ?t] =>
    destruct (polite_delay_trace t) as (s2 & Hd & Ht2) end.
  rewrite Hd. simpl in Ht2.
  assert (Ht2' : trace s2 = trace s ++ evs0 ++ [Nav; Wait]).
  { rewrite Ht2, Ht1, <- !app_assoc. reflexivity. }
  destruct (marker_appears w).
  2:{ eexists [], _, (evs0 ++ [Nav; Wait]), false.
      split; [reflexivity|]. simpl. auto. }
  unfold bind at 1.
  destruct (extract_businesses_from_page_named float (current_page (pages w)) s2)
    as (r3 & s3 & He & Ht3 & Hn3).
  rewrite He. destruct r3 as [businesses|e].
  2:{ destruct (search_handler_returns e s3) as (s' & Hh & Hth).
      exists [], s', (evs0 ++ [Nav; Wait]), false. rewrite Hh.
      split; [reflexivity|].
      split; [rewrite Hth, Ht3; exact Ht2'|]. auto. }
  unfold bind at 1.
  match goal with |- context [more_pages float ?mx 1 ?pg businesses s3] =>
    destruct (more_pages_paced float mx pg 1 businesses s3 (Hn3 _ eq_refl))
      as (r4 & s4 & evs4 & b4 & Hm & Ht4 & Hp4 & Hn4) end.
  rewrite Hm.
  assert (Ht4' : trace s4 = trace s ++ (evs0 ++ [Nav; Wait]) ++ evs4).
  { rewrite Ht4, Ht3, Ht2', <- !app_assoc. reflexivity. }
  assert (Hp4' : paced false ((evs0 ++ [Nav; Wait]) ++ evs4) = Some b4).
  { rewrite paced_app, Hwait. exact Hp4. }
  destruct r4 as [all_businesses|e].
  2:{ destruct (search_handler_returns e s4) as (s' & Hh & Hth).
      exists [], s', ((evs0 ++ [Nav; Wait]) ++ evs4), b4. rewrite Hh.
      split; [reflexivity|].
      split; [rewrite Hth; exact Ht4'|]. auto. }
  destruct (Hn4 all_businesses eq_refl) as (Hb4 & Hall).
  eexists all_businesses, _, ((evs0 ++ [Nav; Wait]) ++ evs4), b4.
  split; [reflexivity|].
  split; [exact Ht4'|].
  split; [exact Hp4'|].
  split; [rewrite Hb4; discriminate|].
  split; [exact Hall|discriminate].
Qed.

(** ** Listings without a name *)

(** C7 (as the code has it). On the list page a listing from which no name
    is extracted is discarded: it adds no record, and every record a query
    returns has a non-empty name.  The click-through scrapers do not discard
    a listing that has no name node: they process it under the placeholder
    name Business i+1, and the record extracted for it carries that name. *)
Theorem nameless_listing_discarded_or_renamed
    (float : string -> option Q) (mode_config : ModeConfig)
    (e : Element) (rest : list Element) (businesses : list Business.t)
    (w : QueryWorld) (location category : string)
    (l : Listing) (i : nat) (s : Scraper) :
  truthy (name_text e) = false ->
  osrxxb_text l = None -> qbf1pd_text l = None ->
  extract_elements float (e :: rest) businesses s
  = extract_elements float rest businesses
      (if element_raises e
       then set_log (log s ++ [error "Error extracting business"]) s
       else s)
  /\ (exists out s',
        search_businesses float mode_config w location category s = (Ok out, s')
        /\ Forall named out)
  /\ business_name_of l i = ("Business " ++ str (i + 1))%string
  /\ (exists b s',
        extract_business_details (detail l) (business_name_of l i) s = (Ok b, s')
        /\ match b with
           | Some b => Business.name b = Some ("Business " ++ str (i + 1))%string
           | None => True
           end).
Proof.
  intros Hn Ho Hq.
  split.
  { cbn [extract_elements]. unfold bind at 1, try_except, bind at 1, lift,
      element_business.
    destruct (element_raises e); simpl; [reflexivity|]. now rewrite Hn. }
  split.
  { destruct (search_businesses_paced float mode_config w location category s)
      as (out & s' & _ & _ & H & _ & _ & _ & Hnamed & _).
    exists out, s'. auto. }
  assert (Hname : business_name_of l i = ("Business " ++ str (i + 1))%string).
  { unfold business_name_of. now rewrite Ho, Hq. }
  split; [exact Hname|].
  destruct (extract_business_details_returns (detail l) (business_name_of l i) s)
    as (b & s' & H & _ & _ & Hb).
  exists b, s'. split; [exact H|]. now rewrite <- Hname.
Qed.

Lemma nameless_listing_discarded_or_renamed_witness :
  fst (extract_elements float_of_decimal [nameless_element] [] new_scraper) = Ok []
  /\ business_name_of nameless_listing 2 = "Business 3".
Proof.
  destruct (nameless_listing_discarded_or_renamed float_of_decimal test_mode
              nameless_element [] [] no_listings "Joliet, IL" "plumber"
              nameless_listing 2 new_scraper)
    as (H1 & _ & H3 & _); [reflexivity..|].
  split; [rewrite H1; reflexivity|exact H3].
Defined.

(** C7 as stated fails in the click-through scrapers: a listing with no name
    node is saved, under the name Business 1. *)
Lemma nameless_listing_is_saved :
  osrxxb_text nameless_listing = None
  /\ qbf1pd_text nameless_listing = None
  /\ fst (process_listings one_nameless_listing "Joliet, IL" "business" new_scraper)
     = Ok tt
  /\ map Businesses.name
       (committed (snd (process_listings one_nameless_listing "Joliet, IL"
                          "business" new_scraper)))
     = [Some "Business 1"]
  /\ businesses_found
       (snd (process_listings one_nameless_listing "Joliet, IL" "business"
               new_scraper)) = 1.
Proof. repeat split; vm_compute; reflexivity. Qed.

Lemma listings_loop_requeries_and_guards_witness :
  for_range 2 1 (process_listing one_nameless_listing "Joliet, IL" "business")
    new_scraper
  = (Ok tt, set_trace [Requery 1] new_scraper).
Proof.
  destruct (listings_loop_requeries_and_guards one_nameless_listing
              "Joliet, IL" "business" new_scraper)
    as (s' & evs & _ & _ & _ & _ & _ & _ & H).
  exact (H 1 1 [nameless_listing] new_scraper eq_refl (le_n 1)).
Defined.

(** ** The orchestrator *)






Lemma keeps_save_all {X} (f : Scraper -> X) w businesses location category :
  (forall w b, keeps f (save_business w b location category)) ->
  (forall n s, f (set_businesses_found n s) = f s) ->
  forall j, keeps f (save_all w j businesses location category).
Proof.
  intros Hs Hf. induction businesses as [|b rest IH]; intros j; simpl.
  - apply keeps_ret.
  - apply keeps_bind; [apply Hs|intros _].
    apply keeps_bind; [apply keeps_modify; intros s; apply Hf|intros _].
    apply IH.
Qed.




Lemma keeps_update_scrape_run {X} (f : Scraper -> X) raises run_id status error_log :
  (forall r s, f (set_scrape_runs r s) = f s) ->
  keeps f (update_scrape_run raises run_id status error_log).
Proof.
  intros H. unfold update_scrape_run. destruct raises; [apply keeps_raise|].
  apply keeps_modify. intros s. apply H.
Qed.

Lemma keeps_create_scrape_run {X} (f : Scraper -> X) raises :
  (forall r s, f (set_scrape_runs r s) = f s) ->
  keeps f (create_scrape_run raises).
Proof.
  intros H. unfold create_scrape_run. destruct raises; [apply keeps_raise|].
  apply keeps_bind; [apply keeps_gets|intros run_id].
  apply keeps_bind; [apply keeps_modify; intros s; apply H|intros _].
  apply keeps_ret.
Qed.

Lemma keeps_close {X} (f : Scraper -> X) h closed raises :
  (forall s, f (closed s) = f s) -> keeps f (close h closed raises).
Proof.
  intros H s. unfold close. destruct (h s), raises; simpl; auto.
Qed.






Lemma store_frame :
  (forall l s, store (set_log l s) = store s)
  /\ (forall t s, store (set_trace t s) = store s)
  /\ (forall n s, store (set_request_count n s) = store s).
Proof. repeat split. Qed.

Lemma handles_frame :
  (forall l s, handles (set_log l s) = handles s)
  /\ (forall t s, handles (set_trace t s) = handles s)
  /\ (forall n s, handles (set_request_count n s) = handles s).
Proof. repeat split. Qed.

(** C4. A query whose results marker does not appear returns no record and
    does not raise, and [run_scrape] moves on: nothing is saved or counted
    for the pair, and the loops continue with the next category, or with the
    next location, from the state the pair left. *)
Theorem query_without_marker_yields_nothing
    (float : string -> option Q) (mode_config : ModeConfig) (w : RunWorld)
    (location category : string) (locations categories : list string)
    (s : Scraper) :
  marker_appears (query w location category) = false ->
  exists s1 s2,
    search_businesses float mode_config (query w location category)
      location category s = (Ok [], s1)
    /\ scrape_pair float mode_config w location category s = (Ok tt, s2)
    /\ store s2 = store s
    /\ for_each (category :: categories)
         (fun category => scrape_pair float mode_config w location category) s
       = for_each categories
           (fun category => scrape_pair float mode_config w location category) s2
    /\ crawl float mode_config w (location :: locations) [category] s
       = crawl float mode_config w locations [category] s2.
Proof.
  intros Hm.
  destruct (search_businesses_paced float mode_config
              (query w location category) location category s)
    as (out & s1 & evs & b & Hs & _ & _ & _ & _ & Hout).
  rewrite (Hout Hm) in Hs.
  destruct store_frame as (Hl & Ht & Hc).
  pose proof (keeps_search_businesses store Hl Ht Hc float mode_config
                (query w location category) location category s) as Hk.
  rewrite Hs in Hk. simpl in Hk.
  assert (Hp : exists s2,
             scrape_pair float mode_config w location category s = (Ok tt, s2)
             /\ store s2 = store s).
  { unfold scrape_pair. unfold bind at 1. rewrite Hs.
    eexists. split; [reflexivity|]. simpl. exact Hk. }
  destruct Hp as (s2 & Hp & Hst).
  exists s1, s2. repeat split; try assumption.
  - cbn [for_each]. unfold bind at 1. rewrite Hp. reflexivity.
  - unfold crawl. cbn [for_each]. unfold bind at 1. unfold bind at 1.
    rewrite Hp. reflexivity.
Qed.

Lemma query_without_marker_yields_nothing_witness :
  exists s2,
    scrape_pair float_of_decimal test_mode (healthy_run no_marker)
      "Joliet, IL" "plumber" new_scraper = (Ok tt, s2)
    /\ store s2 = store new_scraper
    /\ crawl float_of_decimal test_mode (healthy_run no_marker)
         ["Joliet, IL"; "Plainfield, IL"] ["plumber"] new_scraper
       = crawl float_of_decimal test_mode (healthy_run no_marker)
           ["Plainfield, IL"] ["plumber"] s2.
Proof.
  destruct (query_without_marker_yields_nothing float_of_decimal test_mode
              (healthy_run no_marker) "Joliet, IL" "plumber"
              ["Plainfield, IL"] [] new_scraper)
    as (s1 & s2 & _ & Hp & Hs & _ & Hc).
  - reflexivity.
  - exists s2. repeat split; assumption.
Defined.

(** ** Cleanup *)

Lemma keeps_save_business_store_free {X} (f : Scraper -> X) w business location category :
  (forall l s, f (set_log l s) = f s) ->
  (forall r s, f (set_working r s) = f s) ->
  (forall r s, f (set_committed r s) = f s) ->
  (forall n s, f (set_new_businesses_added n s) = f s) ->
  (forall n s, f (set_businesses_without_websites n s) = f s) ->
  keeps f (save_business w business location category).
Proof.
  intros Hl Hw Hc Hn Hb.
  unfold save_business, select_one, execute_write, commit, rollback, logger.
  repeat first
    [ keeps_step
    | apply keeps_modify; intros ?; solve [auto]
    | apply keeps_db_call; intros ?; solve [auto] ];
    intros s; destruct (select_raises w); reflexivity.
Qed.

Lemma keeps_for_each {A X} (f : Scraper -> X) (body : A -> M Scraper unit)
    (l : list A) :
  (forall x, keeps f (body x)) -> keeps f (for_each l body).
Proof.
  intros Hb. induction l as [|x rest IH]; simpl; [apply keeps_ret|].
  apply keeps_bind; [apply Hb|intros _; exact IH].
Qed.

Lemma keeps_crawl_handles float mode_config w locations categories :
  keeps handles (crawl float mode_config w locations categories).
Proof.
  destruct handles_frame as (Hl & Ht & Hc).
  unfold crawl.
  apply keeps_for_each. intros location.
  apply keeps_for_each. intros category.
  unfold scrape_pair.
  apply keeps_bind; [apply keeps_search_businesses; assumption|intros out].
  apply keeps_bind; [apply keeps_modify; reflexivity|intros _].
  apply keeps_bind; [|intros _; apply keeps_polite_delay; assumption].
  apply keeps_save_all; [|reflexivity].
  intros sw b. apply keeps_save_business_store_free; reflexivity.
Qed.

Lemma cleanup_from_open (w : CloseWorld) (s : Scraper) :
  handles s = (Open, Open, Open, Open) ->
  handles (snd (cleanup w s)) = after_cleanup w
  /\ fst (cleanup w s)
     = if page_close_raises w || context_close_raises w
          || browser_close_raises w || db_close_raises w
       then Raise (Error "close") else Ok tt.
Proof.
  unfold handles. intros H. destruct s. simpl in H.
  injection H as -> -> -> ->.
  unfold cleanup, after_cleanup, close, bind. simpl.
  destruct (page_close_raises w); simpl; [auto|].
  destruct (context_close_raises w); simpl; [auto|].
  destruct (browser_close_raises w); simpl; [auto|].
  destruct (db_close_raises w); simpl; auto.
Qed.

(** C3 (as the code has it). Once the browser and the database are
    initialised and the run record is created, [cleanup] runs on every exit
    of [run_scrape], whether the crawl completes or raises, on four open
    handles.  It closes the page, the context, the browser and the database
    connection in that order and stops at the first [close] that raises: the
    handles after it are closed, the others are left open.  When no [close]
    raises all four are closed. *)
Theorem cleanup_runs_after_crawl
    (float : string -> option Q) (mode_config : ModeConfig) (w : RunWorld)
    (locations categories : option (list string)) (s : Scraper) :
  start w = Started -> connect_raises w = false -> create_run_raises w = false ->
  exists r0 s0,
    handles s0 = (Open, Open, Open, Open)
    /\ run_scrape float mode_config w locations categories s
       = (match fst (cleanup (closing w) s0) with
          | Ok _ => r0
          | Raise e => Raise e
          end,
          snd (cleanup (closing w) s0))
    /\ handles (snd (run_scrape float mode_config w locations categories s))
       = after_cleanup (closing w)
    /\ (closing w = closes_ok ->
        handles (snd (run_scrape float mode_config w locations categories s))
        = (Closed, Closed, Closed, Closed)).
Proof.
  intros Hs Hc Hr.
  assert (Hshape : exists r0 s0,
             handles s0 = (Open, Open, Open, Open)
             /\ run_scrape float mode_config w locations categories s
                = (match fst (cleanup (closing w) s0) with
                   | Ok _ => r0
                   | Raise e => Raise e
                   end,
                   snd (cleanup (closing w) s0))).
  { unfold run_scrape. rewrite Hs, Hc, Hr.
    unfold init_browser, init_database, create_scrape_run.
    unfold bind at 1, modify at 1. unfold bind at 1. unfold bind at 1.
    unfold modify at 1, bind at 1, logger at 1, modify at 1.
    unfold bind at 1, logger at 1, modify at 1.
    unfold bind at 1. unfold bind at 1, gets at 1. unfold bind at 1, modify at 1.
    unfold ret at 1. unfold try_finally.
    match goal with |- context [try_except ?body ?handler ?t] =>
      assert (Hk : handles (snd (try_except body handler t)) = handles t);
      [|destruct (try_except body handler t) as [r0 s0]]
    end.
    { apply keeps_try_except.
      - apply keeps_bind; [apply keeps_crawl_handles|intros _].
        apply keeps_update_scrape_run; reflexivity.
      - intros e. unfold logger.
        apply keeps_bind; [apply keeps_modify; reflexivity|intros _].
        apply keeps_bind; [apply keeps_update_scrape_run; reflexivity|intros _].
        apply keeps_raise. }
    exists r0, s0. split; [exact Hk|].
    destruct (cleanup (closing w) s0) as [[[]|e] s']; reflexivity. }
  destruct Hshape as (r0 & s0 & Hk & Hrun).
  exists r0, s0. split; [exact Hk|]. split; [exact Hrun|].
  rewrite Hrun. cbn [snd].
  destruct (cleanup_from_open (closing w) s0 Hk) as (Hh & _).
  split; [exact Hh|].
  intros Hok. rewrite Hh, Hok. reflexivity.
Qed.

Lemma cleanup_runs_after_crawl_witness :
  handles (snd (run_scrape float_of_decimal test_mode (healthy_run no_listings)
                  None None new_scraper))
  = (Closed, Closed, Closed, Closed).
Proof.
  destruct (cleanup_runs_after_crawl float_of_decimal test_mode
              (healthy_run no_listings) None None new_scraper)
    as (r0 & s0 & _ & _ & _ & H); [reflexivity..|].
  apply H. reflexivity.
Defined.

(** C3 as stated fails twice.  When the database cannot be reached
    [run_scrape] raises before its [try]: [cleanup] does not run and the
    page, the context and the browser stay open.  When closing the page
    raises, [cleanup] stops there: the context, the browser and the database
    connection are not closed although their [close] would succeed. *)
Lemma cleanup_skipped_or_cut_short :
  fst (run_scrape float_of_decimal test_mode no_database None None new_scraper)
  = Raise db_error
  /\ handles (snd (run_scrape float_of_decimal test_mode no_database None None
                    new_scraper))
     = (Open, Open, Open, Unset)
  /\ fst (run_scrape float_of_decimal test_mode page_stuck None None new_scraper)
     = Raise (Error "close")
  /\ handles (snd (run_scrape float_of_decimal test_mode page_stuck None None
                    new_scraper))
     = (Open, Open, Open, Open).
Proof. repeat split; vm_compute; reflexivity. Qed.

(** * Further properties of the code *)

(** ** The upsert: transactions, counters, identities *)

(** X1. Whenever [save_business] returns, no transaction is left open: the
    table as the connection sees it is the committed table, whether the
    upsert was committed or rolled back. *)
Theorem save_business_leaves_no_transaction
    (w : SaveWorld) (business : Business.t) (location category : string)
    (s s' : Scraper) :
  save_business w business location category s = (Ok tt, s') ->
  working s' = committed s'.
Proof.
  destruct w as [t d fc fs fw fm fr].
  unfold save_business, try_except, bind, select_one, execute_write,
    commit, rollback, db_call, logger, modify, ret. simpl.
  destruct fc, fr; simpl;
    try (intros H; inversion H; reflexivity);
    try discriminate;
    destruct (truthy (Business.gbp_url business)), fs; simpl;
    try (intros H; inversion H; reflexivity);
    try discriminate;
    match goal with |- context [find ?c ?l] => destruct (find c l) end; simpl;
    destruct fw; simpl;
    try (intros H; inversion H; reflexivity);
    try discriminate;
    destruct fm; simpl;
    try (intros H; inversion H; reflexivity);
    try discriminate;
    destruct (Business.has_website business);
    intros H; inversion H; reflexivity.
Qed.

Lemma save_business_leaves_no_transaction_witness :
  working (snd (save_business write_refused joes "Joliet, IL" "restaurant" new_scraper))
  = committed (snd (save_business write_refused joes "Joliet, IL" "restaurant" new_scraper)).
Proof.
  apply (save_business_leaves_no_transaction write_refused joes "Joliet, IL"
           "restaurant" new_scraper).
  reflexivity.
Defined.

Lemma update_where_length cond f (rows : list Businesses.t) :
  List.length (update_where cond f rows) = List.length rows.
Proof. unfold update_where. apply length_map. Qed.

Lemma update_where_keeps cond f (rows : list Businesses.t) r :
  In r rows -> cond r = false -> In r (update_where cond f rows).
Proof.
  intros Hr Hc. unfold update_where. apply in_map_iff. exists r.
  rewrite Hc. auto.
Qed.

(** What [save_business] can do to the committed table, in any world. *)
Lemma save_business_committed w business location category s :
  working s = committed s ->
  let s' := snd (save_business w business location category s) in
  committed s' = committed s
  \/ committed s'
     = update_where (identity business location)
         (if truthy (Business.gbp_url business)
          then set_by_gbp_url w business
          else set_by_name_city w business)
         (committed s)
  \/ committed s' = committed s ++ [inserted_row w business location category].
Proof.
  intros Hs s'. subst s'. destruct w as [t d fc fs fw fm fr].
  unfold save_business, identity, try_except, bind, select_one, execute_write,
    commit, rollback, db_call, logger, modify, ret. simpl.
  destruct fc, fr; simpl; auto;
    destruct (truthy (Business.gbp_url business)), fs; simpl; auto;
    match goal with |- context [find ?c ?l] => destruct (find c l) end; simpl;
    destruct fw; simpl; auto;
    destruct fm; simpl; auto;
    destruct (Business.has_website business); simpl; rewrite ?Hs; auto.
Qed.

(** X2. [save_business] never deletes: in every world, from a state without
    an open transaction, the committed table keeps its length or grows by
    one row, and every row that the record's lookup key does not match is
    still in it, unchanged. *)
Theorem save_business_never_deletes
    (w : SaveWorld) (business : Business.t) (location category : string)
    (s : Scraper) :
  working s = committed s ->
  let s' := snd (save_business w business location category s) in
  List.length (committed s) <= List.length (committed s')
  /\ List.length (committed s') <= S (List.length (committed s))
  /\ forall r, In r (committed s) -> identity business location r = false ->
               In r (committed s').
Proof.
  intros Hs s'.
  destruct (save_business_committed w business location category s Hs)
    as [H|[H|H]]; fold s' in H; rewrite H.
  - repeat split; auto.
  - rewrite update_where_length. repeat split; auto.
    intros r Hr Hc. now apply update_where_keeps.
  - rewrite length_app. simpl. repeat split; try lia.
    intros r Hr _. apply in_or_app. now left.
Qed.

Lemma save_business_never_deletes_witness :
  List.length (committed (snd (save_business (db_ok 100) joes "Joliet, IL"
                                 "restaurant" new_scraper))) <= 1.
Proof.
  apply (save_business_never_deletes (db_ok 100) joes "Joliet, IL" "restaurant"
           new_scraper).
  reflexivity.
Defined.

(** X3. [new_businesses_added] is incremented before the commit: when the
    INSERT succeeds and the commit raises, the rollback removes the row but
    the counter keeps the increment. *)
Theorem failed_commit_still_counts_new_business
    (w : SaveWorld) (business : Business.t) (location category : string)
    (s : Scraper) :
  cursor_raises w = false -> select_raises w = false -> write_raises w = false ->
  commit_raises w = true -> rollback_raises w = false ->
  working s = committed s ->
  find (identity business location) (committed s) = None ->
  exists s',
    save_business w business location category s = (Ok tt, s')
    /\ committed s' = committed s
    /\ working s' = committed s
    /\ new_businesses_added s' = S (new_businesses_added s).
Proof.
  intros Hc Hsl Hw Hm Hr Hs Hf.
  unfold save_business, try_except, bind, select_one, execute_write,
    commit, rollback, db_call, logger, modify, ret. simpl.
  rewrite Hc, Hsl. simpl. unfold identity in Hf.
  destruct (truthy (Business.gbp_url business)); simpl; rewrite Hs, Hf; simpl;
    rewrite Hw; simpl; rewrite Hm; simpl; rewrite Hr; simpl;
    eexists; repeat split; reflexivity.
Qed.

Lemma failed_commit_still_counts_new_business_witness :
  exists s',
    save_business commit_refused joes "Joliet, IL" "restaurant" new_scraper
    = (Ok tt, s')
    /\ committed s' = []
    /\ new_businesses_added s' = 1.
Proof.
  destruct (failed_commit_still_counts_new_business commit_refused joes
              "Joliet, IL" "restaurant" new_scraper)
    as (s' & H & Hc & _ & Hn); try reflexivity.
  exists s'. auto.
Defined.

(** X4. [businesses_without_websites] counts sightings, not rows: whenever
    the rollback returns, it grows by one exactly when the record has no
    website and the upsert (insert or update) was committed. *)
Theorem without_website_counts_committed_sightings
    (w : SaveWorld) (business : Business.t) (location category : string)
    (s : Scraper) :
  rollback_raises w = false ->
  exists s',
    save_business w business location category s = (Ok tt, s')
    /\ businesses_without_websites s'
       = businesses_without_websites s
         + (if fails w || Business.has_website business then 0 else 1).
Proof.
  intros Hr. destruct w as [t d fc fs fw fm fr]. simpl in Hr. subst fr.
  unfold save_business, fails, try_except, bind, select_one, execute_write,
    commit, rollback, db_call, logger, modify, ret. simpl.
  destruct fc; simpl; [eexists; split; [reflexivity|simpl; lia]|].
  destruct (truthy (Business.gbp_url business)), fs; simpl;
    try (eexists; split; [reflexivity|simpl; lia]);
    match goal with |- context [find ?c ?l] => destruct (find c l) end; simpl;
    destruct fw; simpl; try (eexists; split; [reflexivity|simpl; lia]);
    destruct fm; simpl; try (eexists; split; [reflexivity|simpl; lia]);
    destruct (Business.has_website business); simpl;
    eexists; split; try reflexivity; simpl; lia.
Qed.

Lemma without_website_counts_committed_sightings_witness :
  exists s1 s2,
    save_business (db_ok 100) joes "Joliet, IL" "restaurant" new_scraper = (Ok tt, s1)
    /\ save_business (db_ok 200) joes "Joliet, IL" "restaurant" s1 = (Ok tt, s2)
    /\ businesses_without_websites s2 = 2.
Proof.
  destruct (without_website_counts_committed_sightings (db_ok 100) joes
              "Joliet, IL" "restaurant" new_scraper eq_refl) as (s1 & H1 & Hn1).
  destruct (without_website_counts_committed_sightings (db_ok 200) joes
              "Joliet, IL" "restaurant" s1 eq_refl) as (s2 & H2 & Hn2).
  exists s1, s2. repeat split; try assumption.
  rewrite Hn2, Hn1. reflexivity.
Defined.

Lemma sql_eq_falsy o u :
  truthy o = false -> u <> EmptyString -> sql_eq o (Some u) = false.
Proof.
  intros Ho Hu. destruct o as [x|]; [|reflexivity]. simpl in *.
  destruct (String.eqb_spec x u) as [E|]; [|reflexivity].
  subst x. destruct (String.eqb_spec u "") as [E|]; [contradiction|discriminate].
Qed.

(** X5. The two lookup keys are not reconciled.  A business saved first
    without a [gbp_url] and then, under the same name and location, with
    one, is inserted twice: the lookup by URL does not see the row made by
    the lookup by name and city.  In the other order the second save finds
    the row by name and city and updates it, and the row keeps its URL. *)
Theorem name_key_and_url_key_do_not_meet
    (w1 w2 : SaveWorld) (b1 b2 : Business.t) (n u location category : string)
    (s : Scraper) :
  quiet w1 -> quiet w2 ->
  truthy (Business.gbp_url b1) = false -> Business.name b1 = Some n ->
  u <> EmptyString -> Business.gbp_url b2 = Some u -> Business.name b2 = Some n ->
  working s = committed s ->
  (forall r, In r (committed s) -> Businesses.name r <> Some n) ->
  (forall r, In r (committed s) -> Businesses.gbp_url r <> Some u) ->
  (exists s1 s2,
     save_business w1 b1 location category s = (Ok tt, s1)
     /\ save_business w2 b2 location category s1 = (Ok tt, s2)
     /\ committed s2
        = committed s ++ [inserted_row w1 b1 location category;
                          inserted_row w2 b2 location category])
  /\ (exists s1 s2,
        save_business w1 b2 location category s = (Ok tt, s1)
        /\ save_business w2 b1 location category s1 = (Ok tt, s2)
        /\ committed s2
           = committed s
             ++ [set_by_name_city w2 b1 (inserted_row w1 b2 location category)]
        /\ Businesses.gbp_url
             (set_by_name_city w2 b1 (inserted_row w1 b2 location category))
           = Some u).
Proof.
  intros Hq1 Hq2 Hu1 Hn1 Hu Hu2 Hn2 Hs Hname Hurl.
  assert (Hmn : forall b, Business.name b = Some n ->
            forall r, In r (committed s) -> where_name_city b location r = false).
  { intros b Hb r Hr. unfold where_name_city. rewrite Hb.
    destruct (sql_eq (Businesses.name r) (Some n)) eqn:E; [|reflexivity].
    apply sql_eq_true in E. destruct E as (x & Hx & Hy). inversion Hy; subst.
    exfalso. exact (Hname r Hr Hx). }
  assert (Hmu : forall r, In r (committed s) -> where_gbp_url b2 r = false).
  { intros r Hr. unfold where_gbp_url. rewrite Hu2.
    destruct (sql_eq (Businesses.gbp_url r) (Some u)) eqn:E; [|reflexivity].
    apply sql_eq_true in E. destruct E as (x & Hx & Hy). inversion Hy; subst.
    exfalso. exact (Hurl r Hr Hx). }
  assert (Hid1 : identity b1 location = where_name_city b1 location).
  { unfold identity. now rewrite Hu1. }
  assert (Hid2 : identity b2 location = where_gbp_url b2).
  { unfold identity. now rewrite Hu2, (truthy_some u Hu). }
  split.
  - destruct (save_business_quiet w1 b1 location category s Hq1)
      as (s1 & Hr1 & Hw1 & Hc1 & _).
    rewrite Hid1, Hs, (find_all_false _ _ (Hmn b1 Hn1)) in Hc1.
    destruct (save_business_quiet w2 b2 location category s1 Hq2)
      as (s2 & Hr2 & Hw2 & Hc2 & _).
    rewrite Hid2, Hw1, Hc1 in Hc2.
    assert (Hno : where_gbp_url b2 (inserted_row w1 b1 location category) = false).
    { unfold where_gbp_url, inserted_row. simpl. rewrite Hu2.
      now apply sql_eq_falsy. }
    rewrite (find_app_miss _ _ _ Hmu Hno) in Hc2.
    exists s1, s2. repeat split; try assumption.
    rewrite Hc2, <- app_assoc. reflexivity.
  - destruct (save_business_quiet w1 b2 location category s Hq1)
      as (s1 & Hr1 & Hw1 & Hc1 & _).
    rewrite Hid2, Hs, (find_all_false _ _ Hmu) in Hc1.
    destruct (save_business_quiet w2 b1 location category s1 Hq2)
      as (s2 & Hr2 & Hw2 & Hc2 & _).
    rewrite Hid1, Hu1, Hw1, Hc1 in Hc2.
    assert (Hhit : where_name_city b1 location (inserted_row w1 b2 location category) = true).
    { unfold where_name_city, inserted_row. simpl. rewrite Hn1, Hn2. simpl.
      now rewrite !String.eqb_refl. }
    destruct (find_app_hit _ (committed s) _ Hhit) as (x & Hx).
    rewrite Hx in Hc2.
    exists s1, s2. repeat split; try assumption.
    rewrite Hc2. unfold update_where. rewrite map_app.
    fold (update_where (where_name_city b1 location)
            (set_by_name_city w2 b1) (committed s)).
    rewrite (update_where_untouched _ _ _ (Hmn b1 Hn1)). simpl.
    now rewrite Hhit.
Qed.

Lemma name_key_and_url_key_do_not_meet_witness :
  exists s1 s2,
    save_business (db_ok 100) corner_cafe "Joliet, IL" "business" new_scraper
    = (Ok tt, s1)
    /\ save_business (db_ok 200) corner_cafe_url "Joliet, IL" "business" s1
       = (Ok tt, s2)
    /\ map Businesses.name (committed s2)
       = [Some "Corner Cafe"; Some "Corner Cafe"].
Proof.
  destruct (name_key_and_url_key_do_not_meet (db_ok 100) (db_ok 200)
              corner_cafe corner_cafe_url "Corner Cafe"
              "https://www.google.com/maps/place/corner" "Joliet, IL"
              "business" new_scraper)
    as ((s1 & s2 & H1 & H2 & Hc) & _).
  - repeat split; reflexivity.
  - repeat split; reflexivity.
  - reflexivity.
  - reflexivity.
  - discriminate.
  - reflexivity.
  - reflexivity.
  - reflexivity.
  - intros r [].
  - intros r [].
  - exists s1, s2. repeat split; try assumption. rewrite Hc. reflexivity.
Defined.

(** X6. Saving and exporting meet on the stored city.  A business without a
    website that [save_business] inserts under a location is selected by the
    export query without a city and with the city the text of the location
    before its first comma; with the location itself as the city, when it
    has a comma, it is not selected. *)
Theorem saved_lead_is_exported_by_city
    (w : SaveWorld) (business : Business.t) (location category : string)
    (s : Scraper) :
  quiet w -> Business.has_website business = false ->
  working s = committed s ->
  find (identity business location) (committed s) = None ->
  exists s',
    save_business w business location category s = (Ok tt, s')
    /\ In (inserted_row w business location category) (committed s')
    /\ export_where None (inserted_row w business location category) = true
    /\ export_where (Some (city_of location))
         (inserted_row w business location category) = true
    /\ (has_comma location = true ->
        export_where (Some location)
          (inserted_row w business location category) = false).
Proof.
  intros Hq Hw Hs Hf.
  destruct (save_business_quiet w business location category s Hq)
    as (s' & Hr & _ & Hc & _).
  rewrite Hs, Hf in Hc.
  exists s'. split; [exact Hr|].
  split; [rewrite Hc; apply in_or_app; right; now left|].
  unfold export_where, inserted_row. simpl. rewrite Hw. simpl.
  split; [reflexivity|].
  split.
  - destruct (String.eqb (city_of location) ""); simpl; [reflexivity|].
    apply String.eqb_refl.
  - intros Hcomma.
    destruct (String.eqb_spec location "") as [->|_]; [discriminate|]. simpl.
    destruct (String.eqb_spec (city_of location) location) as [E|_];
      [|reflexivity].
    destruct (city_of_before_comma location) as (rest & _ & _ & Hn).
    rewrite E in Hn. congruence.
Qed.

Lemma saved_lead_is_exported_by_city_witness :
  export_where (Some "Shorewood")
    (inserted_row (db_ok 100) joes "Shorewood, IL" "restaurant") = true
  /\ export_where (Some "Shorewood, IL")
       (inserted_row (db_ok 100) joes "Shorewood, IL" "restaurant") = false.
Proof.
  destruct (saved_lead_is_exported_by_city (db_ok 100) joes "Shorewood, IL"
              "restaurant" new_scraper)
    as (s' & _ & _ & _ & H1 & H2); try reflexivity.
  - repeat split; reflexivity.
  - split; [exact H1|apply H2; reflexivity].
Defined.

(** ** A logic of traces, and the request counter of a run *)

Section TraceLogic.
Variable R : nat -> list event -> nat -> Prop.
Hypothesis R_nil : forall n, R n [] n.
Hypothesis R_app : forall n evs1 m evs2 k,
  R n evs1 m -> R m evs2 k -> R n (evs1 ++ evs2) k.

Lemma follows_keeps {A} (c : M Scraper A) :
  keeps trace c -> keeps request_count c -> follows R c.
Proof.
  intros Ht Hc s. exists []. rewrite app_nil_r, Ht, Hc. auto.
Qed.

Lemma follows_bind {A B} (c : M Scraper A) (k : A -> M Scraper B) :
  follows R c -> (forall a, follows R (k a)) -> follows R (bind c k).
Proof.
  intros Hc Hk s. unfold bind. destruct (Hc s) as (evs1 & Ht1 & H1).
  destruct (c s) as [[a|e] s1]; simpl in *; [|eauto].
  destruct (Hk a s1) as (evs2 & Ht2 & H2).
  exists (evs1 ++ evs2). rewrite Ht2, Ht1, <- app_assoc. eauto.
Qed.

Lemma follows_try_except {A} (body : M Scraper A) (handler : exn -> M Scraper A) :
  follows R body -> (forall e, follows R (handler e)) ->
  follows R (try_except body handler).
Proof.
  intros Hb Hh s. unfold try_except. destruct (Hb s) as (evs1 & Ht1 & H1).
  destruct (body s) as [[a|e] s1]; simpl in *; [eauto|].
  destruct (Hh e s1) as (evs2 & Ht2 & H2).
  exists (evs1 ++ evs2). rewrite Ht2, Ht1, <- app_assoc. eauto.
Qed.

Lemma follows_try_finally {A} (body : M Scraper A) (fin : M Scraper unit) :
  follows R body -> follows R fin -> follows R (try_finally body fin).
Proof.
  intros Hb Hf s. unfold try_finally. destruct (Hb s) as (evs1 & Ht1 & H1).
  destruct (body s) as [r s1]; simpl in *.
  destruct (Hf s1) as (evs2 & Ht2 & H2).
  exists (evs1 ++ evs2).
  destruct (fin s1) as [[[]|e] s2]; simpl in *;
    rewrite Ht2, Ht1, <- app_assoc; eauto.
Qed.

Lemma follows_for_each {A} (body : A -> M Scraper unit) (l : list A) :
  (forall x, follows R (body x)) -> follows R (for_each l body).
Proof.
  intros Hb. induction l as [|x rest IH]; simpl.
  - apply follows_keeps; apply keeps_ret.
  - apply follows_bind; auto.
Qed.

Lemma follows_for_range (body : nat -> M Scraper bool) (n : nat) :
  (forall i, follows R (body i)) -> forall i, follows R (for_range n i body).
Proof.
  intros Hb. induction n as [|n IH]; intros i; simpl.
  - apply follows_keeps; apply keeps_ret.
  - apply follows_bind; [apply Hb|intros []]; [apply IH|].
    apply follows_keeps; apply keeps_ret.
Qed.

Lemma follows_emit (e : event) : (forall n, R n [e] n) -> follows R (emit e).
Proof. intros H s. exists [e]. split; [reflexivity|apply H]. Qed.

(** A request: [check_session_break] and the navigation it announces. *)
Hypothesis R_wait : forall n, R n [Wait] n.
Hypothesis R_request : follows R (bind check_session_break (fun _ => emit Nav)).

Lemma follows_request {A} (k : M Scraper A) :
  follows R k ->
  follows R (bind check_session_break (fun _ => bind (emit Nav) (fun _ => k))).
Proof.
  intros Hk s. destruct (R_request s) as (evs1 & Ht1 & H1).
  unfold bind in *. destruct (check_session_break_trace s) as (s1 & evs0 & Hc & _).
  rewrite Hc in *. unfold emit, modify in *. simpl in *.
  destruct (Hk (set_trace (trace s1 ++ [Nav]) s1)) as (evs2 & Ht2 & H2).
  simpl in Ht2, H2.
  exists (evs1 ++ evs2).
  split; [rewrite Ht2, Ht1, <- app_assoc; reflexivity|].
  eapply R_app; eassumption.
Qed.

Lemma follows_polite_delay : follows R polite_delay.
Proof.
  unfold polite_delay.
  apply follows_bind; [|intros _; apply follows_emit, R_wait].
  apply follows_keeps; unfold logger; keeps_tac.
Qed.

Lemma follows_logger (e : log_entry) : follows R (logger e).
Proof. apply follows_keeps; unfold logger; keeps_tac. Qed.

Lemma follows_raise_if (b : bool) (e : exn) :
  follows R (if b then @raise Scraper unit e else ret tt).
Proof. destruct b; apply follows_keeps; keeps_tac. Qed.

Variable float : string -> option Q.
Variable mode_config : ModeConfig.

Lemma follows_extract_businesses_from_page p :
  follows R (extract_businesses_from_page float p).
Proof.
  apply follows_keeps; apply keeps_extract_businesses_from_page; reflexivity.
Qed.

Lemma follows_more_pages max_pages pages :
  forall page_count all_businesses,
    follows R (more_pages float max_pages page_count pages all_businesses).
Proof.
  induction pages as [p|p|p c l rest IH]; intros page_count all_businesses;
    simpl; destruct (page_count <? max_pages);
    try (apply follows_keeps; keeps_tac; fail).
  apply follows_bind; [apply follows_logger|intros _].
  apply follows_bind.
  - unfold click_next_page. apply follows_request.
    apply follows_bind; [apply follows_raise_if|intros _].
    apply follows_raise_if.
  - intros _. apply follows_bind; [apply follows_polite_delay|intros _].
    apply follows_bind; [apply follows_extract_businesses_from_page|intros more].
    apply IH.
Qed.

Lemma follows_search_businesses w location category :
  follows R (search_businesses float mode_config w location category).
Proof.
  unfold search_businesses.
  apply follows_bind; [apply follows_logger|intros _].
  apply follows_try_except.
  - apply follows_request.
    apply follows_bind;
      [destruct (goto_raises w); apply follows_keeps; keeps_tac|intros _].
    apply follows_bind; [apply follows_polite_delay|intros _].
    destruct (marker_appears w).
    + apply follows_bind;
        [apply follows_extract_businesses_from_page|intros businesses].
      apply follows_bind; [apply follows_more_pages|intros all_businesses].
      apply follows_bind; [apply follows_logger|intros _].
      apply follows_keeps; apply keeps_ret.
    + apply follows_bind; [apply follows_logger|intros _].
      apply follows_keeps; apply keeps_ret.
  - intros e. destruct e;
      (apply follows_bind; [apply follows_logger|intros _];
       apply follows_keeps; apply keeps_ret).
Qed.

Lemma follows_save_business w business location category :
  follows R (save_business w business location category).
Proof.
  apply follows_keeps; apply keeps_save_business_store_free; reflexivity.
Qed.

Lemma follows_crawl w locations categories :
  follows R (crawl float mode_config w locations categories).
Proof.
  unfold crawl. apply follows_for_each. intros location.
  apply follows_for_each. intros category. unfold scrape_pair.
  apply follows_bind; [apply follows_search_businesses|intros businesses].
  apply follows_bind; [apply follows_logger|intros _].
  apply follows_bind; [|intros _; apply follows_polite_delay].
  apply follows_keeps; apply keeps_save_all; try reflexivity;
    intros sw b; apply keeps_save_business_store_free; reflexivity.
Qed.

Lemma follows_cleanup w : follows R (cleanup w).
Proof.
  apply follows_keeps; unfold cleanup;
    repeat (apply keeps_bind; [apply keeps_close; reflexivity|intros _]);
    apply keeps_close; reflexivity.
Qed.

Lemma follows_update_scrape_run raises run_id status error_log :
  follows R (update_scrape_run raises run_id status error_log).
Proof. apply follows_keeps; apply keeps_update_scrape_run; reflexivity. Qed.

Lemma follows_setup w :
  follows R (init_browser (start w))
  /\ follows R (init_database (connect_raises w))
  /\ follows R (create_scrape_run (create_run_raises w)).
Proof.
  split; [|split].
  - apply follows_keeps; unfold init_browser; destruct (start w); keeps_tac.
  - apply follows_keeps; unfold init_database, logger; keeps_tac.
  - apply follows_keeps; apply keeps_create_scrape_run; reflexivity.
Qed.

Lemma follows_run_scrape w locations categories :
  follows R (run_scrape float mode_config w locations categories).
Proof.
  destruct (follows_setup w) as (Hb & Hd & Hc).
  unfold run_scrape.
  apply follows_bind; [exact Hb|intros _].
  apply follows_bind; [exact Hd|intros _].
  apply follows_bind; [apply follows_logger|intros _].
  apply follows_bind; [exact Hc|intros run_id].
  apply follows_try_finally; [|apply follows_cleanup].
  apply follows_try_except.
  - apply follows_bind; [apply follows_crawl|intros _].
    apply follows_update_scrape_run.
  - intros e.
    apply follows_bind; [apply follows_logger|intros _].
    apply follows_bind; [apply follows_update_scrape_run|intros _].
    apply follows_keeps; apply keeps_raise.
Qed.

End TraceLogic.

Lemma navs_app evs1 evs2 : navs (evs1 ++ evs2) = navs evs1 + navs evs2.
Proof.
  induction evs1 as [|e evs1 IH]; simpl; [reflexivity|].
  destruct e; simpl; now rewrite IH.
Qed.

Lemma breaks_app evs1 evs2 : breaks (evs1 ++ evs2) = breaks evs1 + breaks evs2.
Proof.
  induction evs1 as [|e evs1 IH]; simpl; [reflexivity|].
  destruct e; simpl; now rewrite IH.
Qed.

Lemma accounted_nil n : accounted n [] n.
Proof. intros H. simpl. split; [lia|exact H]. Qed.

Lemma accounted_app n evs1 m evs2 k :
  accounted n evs1 m -> accounted m evs2 k -> accounted n (evs1 ++ evs2) k.
Proof.
  intros H1 H2 Hn. destruct (H1 Hn) as (E1 & Hm). destruct (H2 Hm) as (E2 & Hk).
  rewrite navs_app, breaks_app. split; [lia|exact Hk].
Qed.

Lemma accounted_wait n : accounted n [Wait] n.
Proof. intros H. simpl. split; [lia|exact H]. Qed.

Lemma accounted_request :
  follows accounted (bind check_session_break (fun _ => emit Nav)).
Proof.
  intros s.
  unfold check_session_break, session_break, bind, modify, gets, logger, emit,
    ret.
  cbn [fst snd request_count set_request_count].
  destruct (REQUESTS_PER_SESSION <=? S (request_count s)) eqn:E;
    unfold accounted, REQUESTS_PER_SESSION in *.
  - exists [SessionBreak; Nav]. split; [simpl; now rewrite <- app_assoc|].
    intros Hn. apply Nat.leb_le in E. simpl. lia.
  - exists [Nav]. split; [reflexivity|].
    intros Hn. apply Nat.leb_gt in E. simpl. lia.
Qed.

(** X7. Through a whole run of the list-page scraper the request counter
    accounts for the navigations: started below REQUESTS_PER_SESSION it ends
    below it, and the navigations issued, counted from the counter's start,
    are ten per session break plus the counter's final value.  So a session
    break is taken at every tenth request, in every world. *)
Theorem session_break_every_tenth_request
    (float : string -> option Q) (mode_config : ModeConfig) (w : RunWorld)
    (locations categories : option (list string)) (s : Scraper) :
  request_count s < REQUESTS_PER_SESSION ->
  exists evs,
    trace (snd (run_scrape float mode_config w locations categories s))
    = trace s ++ evs
    /\ request_count s + navs evs
       = REQUESTS_PER_SESSION * breaks evs
         + request_count (snd (run_scrape float mode_config w locations categories s))
    /\ request_count (snd (run_scrape float mode_config w locations categories s))
       < REQUESTS_PER_SESSION.
Proof.
  intros Hn.
  destruct (follows_run_scrape accounted accounted_nil accounted_app
              accounted_wait accounted_request float mode_config w
              locations categories s) as (evs & Ht & Ha).
  exists evs. split; [exact Ht|]. exact (Ha Hn).
Qed.

Lemma session_break_every_tenth_request_witness :
  exists evs,
    trace (snd (run_scrape float_of_decimal full_mode (healthy_run no_listings)
                  None None new_scraper)) = evs
    /\ navs evs = 10 * breaks evs
                  + request_count
                      (snd (run_scrape float_of_decimal full_mode
                              (healthy_run no_listings) None None new_scraper)).
Proof.
  destruct (session_break_every_tenth_request float_of_decimal full_mode
              (healthy_run no_listings) None None new_scraper)
    as (evs & Ht & Ha & _).
  - unfold REQUESTS_PER_SESSION. simpl. lia.
  - exists evs. split; [exact Ht|exact Ha].
Defined.

(** ** The list-page scraper: what a query returns *)

Lemma click_next_page_raises click_raises load_raises s :
  click_raises || load_raises = true ->
  exists s', click_next_page click_raises load_raises s
             = (Raise PlaywrightTimeout, s').
Proof.
  intros H. unfold click_next_page, bind.
  destruct (check_session_break_trace s) as (s1 & evs & Hc & _).
  rewrite Hc. unfold emit, modify, raise, ret. simpl.
  destruct click_raises; simpl; [eauto|].
  simpl in H. subst load_raises. simpl. eauto.
Qed.

(** X8. A query of the list-page scraper never raises and never touches the
    database or the counters, in any world: it returns a list of records.
    It returns all pages or nothing: when the first page is extracted and the
    click on the next-page link (or the load after it) fails, the records of
    the first page are dropped and the query returns the empty list. *)
Theorem search_businesses_all_or_nothing
    (float : string -> option Q) (mode_config : ModeConfig) (w : QueryWorld)
    (location category : string) (s : Scraper)
    (p : PageWorld) (click_raises load_raises : bool) (rest : Pages) (n : nat) :
  goto_raises w = None -> marker_appears w = true ->
  pages w = NextPage p click_raises load_raises rest ->
  mode_max_pages mode_config = Some n -> 2 <= n ->
  click_raises || load_raises = true ->
  (forall w' s0, exists out s',
     search_businesses float mode_config w' location category s0 = (Ok out, s')
     /\ store s' = store s0)
  /\ exists s',
       search_businesses float mode_config w location category s = (Ok [], s').
Proof.
  intros Hg Hm Hp Hn Hle Hc.
  split.
  { intros w' s0.
    destruct (search_businesses_paced float mode_config w' location category s0)
      as (out & s' & _ & _ & H & _).
    destruct store_frame as (Hl & Ht & Hk).
    pose proof (keeps_search_businesses store Hl Ht Hk float mode_config w'
                  location category s0) as Hs.
    rewrite H in Hs. exists out, s'. auto. }
  unfold search_businesses.
  unfold bind at 1, logger at 1, modify at 1, try_except.
  unfold bind at 1.
  match goal with |- context [check_session_break ?t] =>
    destruct (check_session_break_trace t) as (s1 & evs0 & Hk & _) end.
  rewrite Hk. unfold bind at 1, emit at 1, modify at 1.
  unfold bind at 1. rewrite Hg. unfold ret at 1. unfold bind at 1.
  match goal with |- context [polite_delay ?t] =>
    destruct (polite_delay_trace t) as (s2 & Hd & _) end.
  rewrite Hd, Hm. unfold bind at 1.
  destruct (extract_businesses_from_page_named float (current_page (pages w)) s2)
    as (r3 & s3 & He & _).
  rewrite He. destruct r3 as [businesses|e].
  2:{ destruct (search_handler_returns e s3) as (s' & Hh & _).
      rewrite Hh. eauto. }
  unfold bind at 1. rewrite Hp, Hn. cbn [more_pages].
  assert (Hlt : (1 <? n) = true) by (apply Nat.ltb_lt; lia).
  rewrite Hlt. unfold bind at 1, logger at 1, modify at 1. unfold bind at 1.
  match goal with |- context [click_next_page click_raises load_raises ?t] =>
    destruct (click_next_page_raises click_raises load_raises t Hc)
      as (s4 & Hcl) end.
  rewrite Hcl. eexists. reflexivity.
Qed.

Lemma search_businesses_all_or_nothing_witness :
  fst (extract_businesses_from_page float_of_decimal
         (current_page (pages stuck_after_first_page)) new_scraper)
  = Ok [Business.mk (Some "Corner Cafe") (Some "(815) 555-0101") None None
          false None None]
  /\ exists s',
       search_businesses float_of_decimal debug_mode stuck_after_first_page
         "Joliet, IL" "restaurant" new_scraper = (Ok [], s').
Proof.
  split; [vm_compute; reflexivity|].
  apply (search_businesses_all_or_nothing float_of_decimal debug_mode
           stuck_after_first_page "Joliet, IL" "restaurant" new_scraper
           (mkPageWorld false [cafe_element] []) true false
           (LastPage empty_page) 2); reflexivity.
Defined.

Lemma click_next_page_navs click_raises load_raises s :
  exists evs,
    trace (snd (click_next_page click_raises load_raises s)) = trace s ++ evs
    /\ navs evs = 1.
Proof.
  unfold click_next_page, bind.
  unfold check_session_break, session_break, bind, modify, gets, logger, emit,
    raise, ret.
  cbn [fst snd request_count set_request_count].
  destruct (REQUESTS_PER_SESSION <=? S (request_count s));
    destruct click_raises; try destruct load_raises; simpl;
    first [ exists [SessionBreak; Nav]; split;
            [now rewrite <- app_assoc|reflexivity]
          | exists [Nav]; split; reflexivity ].
Qed.

Lemma more_pages_navs float max_pages pages :
  forall page_count all_businesses s,
    exists evs,
      trace (snd (more_pages float max_pages page_count pages all_businesses s))
      = trace s ++ evs
      /\ navs evs <= max_pages - page_count.
Proof.
  induction pages as [p|p|p c l rest IH]; intros page_count all_businesses s;
    simpl; destruct (page_count <? max_pages) eqn:El;
    try (exists []; rewrite app_nil_r; split; [reflexivity|simpl; lia]).
  apply Nat.ltb_lt in El.
  unfold bind at 1, logger at 1, modify at 1. unfold bind at 1.
  match goal with |- context [click_next_page c l ?t] =>
    destruct (click_next_page_navs c l t) as (evs1 & Ht1 & Hn1);
    destruct (click_next_page c l t) as [[[]|e] s1] end;
    simpl in Ht1.
  2:{ exists evs1. simpl. split; [exact Ht1|lia]. }
  unfold bind at 1.
  destruct (polite_delay_trace s1) as (s2 & Hd & Ht2). rewrite Hd.
  unfold bind at 1.
  destruct (extract_businesses_from_page_named float (current_page rest) s2)
    as (r3 & s3 & He & Ht3 & _).
  rewrite He.
  assert (Ht3' : trace s3 = trace s ++ evs1 ++ [Wait]).
  { rewrite Ht3, Ht2, Ht1, <- app_assoc. reflexivity. }
  destruct r3 as [more|e].
  2:{ exists (evs1 ++ [Wait]). simpl. split; [exact Ht3'|].
      rewrite navs_app. simpl. lia. }
  destruct (IH (S page_count) (all_businesses ++ more) s3) as (evs4 & Ht4 & Hn4).
  exists ((evs1 ++ [Wait]) ++ evs4). split.
  - rewrite Ht4, Ht3', <- !app_assoc. reflexivity.
  - rewrite !navs_app. simpl. lia.
Qed.

Lemma check_session_break_navs s :
  exists s' evs,
    check_session_break s = (Ok tt, s')
    /\ trace s' = trace s ++ evs
    /\ navs evs = 0.
Proof.
  unfold check_session_break, session_break, bind, modify, gets, logger, emit,
    ret.
  cbn [fst snd request_count set_request_count].
  destruct (REQUESTS_PER_SESSION <=? S (request_count s)).
  - eexists _, [SessionBreak]. repeat split.
  - eexists _, []. rewrite app_nil_r. repeat split.
Qed.

(** X9. A query of the list-page scraper issues at least one navigation, the
    search request, and at most [max_pages] of them (one when [max_pages] is
    0 or missing): it never requests more result pages than the mode
    allows. *)
Theorem search_businesses_respects_max_pages
    (float : string -> option Q) (mode_config : ModeConfig) (w : QueryWorld)
    (location category : string) (s : Scraper) :
  exists evs,
    trace (snd (search_businesses float mode_config w location category s))
    = trace s ++ evs
    /\ 1 <= navs evs
    /\ navs evs
       <= Nat.max 1 (match mode_max_pages mode_config with
                     | Some n => n
                     | None => 1
                     end).
Proof.
  unfold search_businesses.
  set (mx := match mode_max_pages mode_config with Some n => n | None => 1 end).
  clearbody mx.
  assert (Hmax : 1 <= Nat.max 1 mx /\ 1 + (mx - 1) <= Nat.max 1 mx) by lia.
  set (bound := Nat.max 1 mx) in *. clearbody bound.
  unfold bind at 1, logger at 1, modify at 1, try_except.
  unfold bind at 1.
  match goal with |- context [check_session_break ?t] =>
    destruct (check_session_break_navs t) as (s1 & evs0 & Hk & Ht1 & Hn0) end.
  rewrite Hk. simpl in Ht1.
  unfold bind at 1, emit at 1, modify at 1. unfold bind at 1.
  assert (Hn1 : navs (evs0 ++ [Nav]) = 1) by (rewrite navs_app, Hn0; reflexivity).
  assert (Hn2 : navs (evs0 ++ [Nav; Wait]) = 1)
    by (rewrite navs_app, Hn0; reflexivity).
  destruct (goto_raises w) as [e|].
  { unfold raise.
    match goal with |- context [match e with _ => _ end ?t] =>
      destruct (search_handler_returns e t) as (s' & Hh & Hth) end.
    rewrite Hh. exists (evs0 ++ [Nav]). cbn [snd].
    split; [rewrite Hth; simpl; rewrite Ht1, <- app_assoc; reflexivity|].
    rewrite Hn1. lia. }
  unfold ret at 1. unfold bind at 1.
  match goal with |- context [polite_delay ?t] =>
    destruct (polite_delay_trace t) as (s2 & Hd & Ht2) end.
  rewrite Hd. simpl in Ht2.
  assert (Ht2' : trace s2 = trace s ++ evs0 ++ [Nav; Wait]).
  { rewrite Ht2, Ht1, <- !app_assoc. reflexivity. }
  destruct (marker_appears w).
  2:{ exists (evs0 ++ [Nav; Wait]). simpl.
      split; [exact Ht2'|]. rewrite Hn2. lia. }
  unfold bind at 1.
  destruct (extract_businesses_from_page_named float (current_page (pages w)) s2)
    as (r3 & s3 & He & Ht3 & _).
  rewrite He. destruct r3 as [businesses|e].
  2:{ destruct (search_handler_returns e s3) as (s' & Hh & Hth).
      rewrite Hh. exists (evs0 ++ [Nav; Wait]). cbn [snd].
      split; [rewrite Hth, Ht3; exact Ht2'|]. rewrite Hn2. lia. }
  unfold bind at 1.
  destruct (more_pages_navs float mx (pages w) 1 businesses s3)
    as (evs4 & Ht4 & Hn4).
  destruct (more_pages float mx 1 (pages w) businesses s3)
    as [[all_businesses|e] s4]; simpl in Ht4.
  - exists ((evs0 ++ [Nav; Wait]) ++ evs4). simpl.
    split; [rewrite Ht4, Ht3, Ht2', <- !app_assoc; reflexivity|].
    rewrite navs_app, Hn2. lia.
  - destruct (search_handler_returns e s4) as (s' & Hh & Hth).
    rewrite Hh. exists ((evs0 ++ [Nav; Wait]) ++ evs4). cbn [snd].
    split; [rewrite Hth, Ht4, Ht3, Ht2', <- !app_assoc; reflexivity|].
    rewrite navs_app, Hn2. lia.
Qed.

(** ** The list-page scraper: the run and its ledger *)

Lemma keeps_crawl {X} (f : Scraper -> X) float mode_config w locations categories :
  (forall l s, f (set_log l s) = f s) ->
  (forall t s, f (set_trace t s) = f s) ->
  (forall n s, f (set_request_count n s) = f s) ->
  (forall r s, f (set_working r s) = f s) ->
  (forall r s, f (set_committed r s) = f s) ->
  (forall n s, f (set_new_businesses_added n s) = f s) ->
  (forall n s, f (set_businesses_without_websites n s) = f s) ->
  (forall n s, f (set_businesses_found n s) = f s) ->
  keeps f (crawl float mode_config w locations categories).
Proof.
  intros Hl Ht Hc Hw Hm Hn Hb Hf.
  unfold crawl.
  apply keeps_for_each. intros location.
  apply keeps_for_each. intros category.
  unfold scrape_pair.
  apply keeps_bind; [apply keeps_search_businesses; assumption|intros out].
  apply keeps_bind; [apply keeps_modify; intros s; apply Hl|intros _].
  apply keeps_bind; [|intros _; apply keeps_polite_delay; assumption].
  apply keeps_save_all; [|assumption].
  intros sw b. apply keeps_save_business_store_free; assumption.
Qed.

Lemma replace_nth_last {A} (l : list A) (x y : A) :
  replace_nth (List.length l) x (l ++ [y]) = l ++ [x].
Proof. induction l as [|a l IH]; simpl; [reflexivity|now rewrite IH]. Qed.

Lemma keeps_cleanup {X} (f : Scraper -> X) w :
  (forall p c b d s, f (set_handles p c b d s) = f s) -> keeps f (cleanup w).
Proof.
  intros H. unfold cleanup.
  repeat (apply keeps_bind; [apply keeps_close; intros s; apply H|intros _]).
  apply keeps_close; intros s; apply H.
Qed.

(** How a run ends once the browser, the database and the run record are
    set up and the ledger accepts the final update. *)
Lemma run_scrape_outcome float mode_config w locations categories s :
  start w = Started -> connect_raises w = false -> create_run_raises w = false ->
  update_completed_raises w = false -> update_failed_raises w = false ->
  exists s1 s2 r2 status err,
    handles s1 = (Open, Open, Open, Open)
    /\ (r2, status, err)
       = match fst (crawl float mode_config w
                      (effective locations LOCATIONS (mode_locations mode_config))
                      (effective categories CATEGORIES (mode_categories mode_config))
                      s1) with
         | Ok _ => (Ok tt, completed, None)
         | Raise e => (Raise e, failed, Some (str_of_exn e))
         end
    /\ scrape_runs s2 = scrape_runs s ++ [ledger_row status err s2]
    /\ handles s2 = (Open, Open, Open, Open)
    /\ run_scrape float mode_config w locations categories s
       = (match fst (cleanup (closing w) s2) with
          | Ok _ => r2
          | Raise e => Raise e
          end,
          snd (cleanup (closing w) s2)).
Proof.
  intros Hs Hc Hr Huc Huf. unfold run_scrape. rewrite Hs, Hc, Hr, Huc, Huf.
  unfold init_browser, init_database, create_scrape_run.
  unfold bind at 1, modify at 1. unfold bind at 1. unfold bind at 1.
  unfold modify at 1, bind at 1, logger at 1, modify at 1.
  unfold bind at 1, logger at 1, modify at 1.
  unfold bind at 1. unfold bind at 1, gets at 1. unfold bind at 1, modify at 1.
  unfold ret at 1. unfold try_finally, try_except. unfold bind at 1.
  match goal with |- context [crawl float mode_config w ?L ?C ?t] =>
    set (s1 := t);
    assert (Hk : handles (snd (crawl float mode_config w L C s1)) = handles s1)
      by (apply keeps_crawl; reflexivity);
    assert (Hl : scrape_runs (snd (crawl float mode_config w L C s1))
                 = scrape_runs s1)
      by (apply (keeps_crawl scrape_runs); reflexivity);
    exists s1;
    destruct (crawl float mode_config w L C s1) as [[[]|e] sc]
  end; cbn [fst snd] in *.
  - unfold update_scrape_run, modify.
    match goal with |- context [cleanup (closing w) ?t] =>
      exists t, (Ok tt), completed, None end.
    split; [reflexivity|]. split; [reflexivity|].
    split; [|split].
    + cbn [scrape_runs set_scrape_runs]. rewrite Hl. subst s1.
      cbn [scrape_runs set_scrape_runs set_log set_handles].
      rewrite replace_nth_last. reflexivity.
    + exact Hk.
    + match goal with |- context [cleanup (closing w) ?t] =>
        destruct (cleanup (closing w) t) as [[[]|e] s'] end; reflexivity.
  - unfold bind, logger, update_scrape_run, modify, raise.
    match goal with |- context [cleanup (closing w) ?t] =>
      exists t, (Raise e), failed, (Some (str_of_exn e)) end.
    split; [reflexivity|]. split; [reflexivity|].
    split; [|split].
    + cbn [scrape_runs set_scrape_runs set_log]. rewrite Hl. subst s1.
      cbn [scrape_runs set_scrape_runs set_log set_handles].
      rewrite replace_nth_last. reflexivity.
    + exact Hk.
    + match goal with |- context [cleanup (closing w) ?t] =>
        destruct (cleanup (closing w) t) as [[[]|e'] s'] end; reflexivity.
Qed.



Lemma for_each_returns {A} (body : A -> M Scraper unit) (l : list A) :
  (forall x s, exists s', body x s = (Ok tt, s')) ->
  forall s, exists s', for_each l body s = (Ok tt, s').
Proof.
  intros Hb. induction l as [|x rest IH]; intros s; simpl; [eexists; reflexivity|].
  unfold bind. destruct (Hb x s) as (s1 & H1). rewrite H1. apply IH.
Qed.

Lemma crawl_returns float mode_config w locations categories :
  (forall location category j,
     rollback_raises (saves w location category j) = false) ->
  forall s, exists s', crawl float mode_config w locations categories s = (Ok tt, s').
Proof.
  intros Hr. unfold crawl.
  apply for_each_returns. intros location.
  apply for_each_returns. intros category s.
  unfold scrape_pair. unfold bind at 1.
  destruct (search_businesses_paced float mode_config
              (query w location category) location category s)
    as (out & s1 & _ & _ & Hs & _).
  rewrite Hs. unfold bind at 1, logger at 1, modify at 1. unfold bind at 1.
  match goal with |- context [save_all ?sw 0 out location category ?t] =>
    destruct (save_all_returns sw out location category (Hr location category) 0 t)
      as (s2 & H2 & _) end.
  rewrite H2. eexists. reflexivity.
Qed.

(** X11. The crawl of the list-page scraper can only be stopped by the
    database: whatever the browser does (timeouts, missing markers, elements
    that raise, broken pagination), if no rollback raises, and the setup, the
    ledger update and the closing calls succeed, [run_scrape] returns
    normally, the run is recorded as [completed] with the final counters,
    and the four handles are closed. *)
Theorem run_completes_when_rollbacks_return
    (float : string -> option Q) (mode_config : ModeConfig) (w : RunWorld)
    (locations categories : option (list string)) (s : Scraper) :
  start w = Started -> connect_raises w = false -> create_run_raises w = false ->
  update_completed_raises w = false -> update_failed_raises w = false ->
  closing w = closes_ok ->
  (forall location category j,
     rollback_raises (saves w location category j) = false) ->
  exists s',
    run_scrape float mode_config w locations categories s = (Ok tt, s')
    /\ scrape_runs s' = scrape_runs s ++ [ledger_row completed None s']
    /\ handles s' = (Closed, Closed, Closed, Closed).
Proof.
  intros Hs Hc Hr Huc Huf Hcl Hrb.
  destruct (run_scrape_outcome float mode_config w locations categories s
              Hs Hc Hr Huc Huf)
    as (s1 & s2 & r2 & status & err & _ & Ho & Hl & Hh & Hrun).
  destruct (crawl_returns float mode_config w
              (effective locations LOCATIONS (mode_locations mode_config))
              (effective categories CATEGORIES (mode_categories mode_config))
              Hrb s1) as (sc & Hcr).
  rewrite Hcr in Ho. cbn [fst] in Ho. inversion Ho; subst.
  pose proof (keeps_cleanup scrape_runs (closing w) (fun _ _ _ _ _ => eq_refl) s2)
    as Kr.
  pose proof (keeps_cleanup store (closing w) (fun _ _ _ _ _ => eq_refl) s2) as Ks.
  destruct (cleanup_from_open (closing w) s2 Hh) as (Hah & Hres).
  rewrite Hcl in Hres, Hah. cbn in Hres, Hah.
  exists (snd (cleanup (closing w) s2)).
  split; [rewrite Hrun, Hcl, Hres; reflexivity|].
  split; [|rewrite Hcl; exact Hah].
  rewrite Hcl in Kr, Ks. rewrite Hcl, Kr, Hl. f_equal. f_equal.
  unfold ledger_row. unfold store in Ks.
  inversion Ks as [[H1 H2 H3 H4 H5]]. now rewrite H3, H4, H5.
Qed.

Lemma run_completes_when_rollbacks_return_witness :
  exists s',
    run_scrape float_of_decimal test_mode (healthy_run stuck_after_first_page)
      None None new_scraper = (Ok tt, s')
    /\ handles s' = (Closed, Closed, Closed, Closed).
Proof.
  destruct (run_completes_when_rollbacks_return float_of_decimal test_mode
              (healthy_run stuck_after_first_page) None None new_scraper)
    as (s' & H & _ & Hh); try reflexivity.
  exists s'. auto.
Defined.

(** ** The regular expressions: group 1 of a match *)

Section Captures.
Context {R : Type}.
Variable ignorecase : bool.

Lemma lit_same_cap (l : string) (cap : option string) (k k' : @Re.cont R) :
  (forall c p s, k c p s cap = k' c p s cap) ->
  forall acc prev s,
    Re.lit ignorecase l acc prev s cap k = Re.lit ignorecase l acc prev s cap k'.
Proof.
  intros H. induction l as [|c l IH]; intros acc prev s; simpl; [apply H|].
  destruct s as [|d s]; [reflexivity|].
  destruct (Re.char_eq ignorecase c d); [apply IH|reflexivity].
Qed.

Lemma rep_same_cap (p : ascii -> bool) (cap : option string) (k k' : @Re.cont R) :
  (forall c q s, k c q s cap = k' c q s cap) ->
  forall s lo hi acc prev,
    Re.rep p lo hi acc prev s cap k = Re.rep p lo hi acc prev s cap k'.
Proof.
  intros H. induction s as [|c s IH]; intros lo hi acc prev; simpl.
  - now rewrite H.
  - rewrite IH, H. reflexivity.
Qed.

Lemma m_ext (r : Re.regex) :
  forall prev s cap (k k' : @Re.cont R),
    (forall c p s' cap', k c p s' cap' = k' c p s' cap') ->
    Re.m ignorecase r prev s cap k = Re.m ignorecase r prev s cap k'.
Proof.
  induction r as [l|p lo hi|r1 IH1 r2 IH2|r1 IH1 r2 IH2|r1 IH1|];
    intros prev s cap k k' H; simpl.
  - apply lit_same_cap. intros; apply H.
  - apply rep_same_cap. intros; apply H.
  - apply IH1. intros c1 p1 s1 cap1. apply IH2. intros; apply H.
  - rewrite (IH1 prev s cap k k' H), (IH2 prev s cap k k' H). reflexivity.
  - apply IH1. intros; apply H.
  - now rewrite H.
Qed.

Lemma m_captured (r : Re.regex) :
  forall prev s cap (k : @Re.cont R),
    captures r = true \/ cap <> None ->
    Re.m ignorecase r prev s cap k
    = Re.m ignorecase r prev s cap (only_captured k).
Proof.
  induction r as [l|p lo hi|r1 IH1 r2 IH2|r1 IH1 r2 IH2|r1 IH1|];
    intros prev s cap k Hc; simpl.
  - destruct Hc as [Hc|Hc]; [discriminate|].
    apply lit_same_cap. intros. unfold only_captured.
    destruct cap; [reflexivity|contradiction].
  - destruct Hc as [Hc|Hc]; [discriminate|].
    apply rep_same_cap. intros. unfold only_captured.
    destruct cap; [reflexivity|contradiction].
  - simpl in Hc.
    destruct (captures r1) eqn:E1.
    + rewrite IH1 by now left.
      symmetry. rewrite IH1 by now left. symmetry.
      apply m_ext. intros c1 p1 s1 cap1. unfold only_captured at 1 3.
      destruct cap1 as [g|]; [|reflexivity].
      rewrite IH2 by (right; discriminate).
      apply m_ext. intros c2 p2 s2 cap2. reflexivity.
    + destruct (captures r2) eqn:E2.
      * apply m_ext. intros c1 p1 s1 cap1.
        rewrite IH2 by now left.
        apply m_ext. intros c2 p2 s2 cap2. reflexivity.
      * destruct Hc as [Hc|Hc]; [discriminate|].
        rewrite IH1 by now right.
        symmetry. rewrite IH1 by now right. symmetry.
        apply m_ext. intros c1 p1 s1 cap1. unfold only_captured at 1 3.
        destruct cap1 as [g|]; [|reflexivity].
        rewrite IH2 by (right; discriminate).
        apply m_ext. intros c2 p2 s2 cap2. reflexivity.
  - simpl in Hc.
    assert (H1 : captures r1 = true \/ cap <> None).
    { destruct Hc as [Hc|Hc]; [|now right].
      apply andb_true_iff in Hc. now left. }
    assert (H2 : captures r2 = true \/ cap <> None).
    { destruct Hc as [Hc|Hc]; [|now right].
      apply andb_true_iff in Hc. now left. }
    rewrite (IH1 prev s cap k H1), (IH2 prev s cap k H2). reflexivity.
  - apply m_ext. intros c p s' cap'. reflexivity.
  - destruct Hc as [Hc|Hc]; [discriminate|].
    unfold only_captured. destruct cap; [reflexivity|contradiction].
Qed.

Lemma lit_from_k (l : string) (cap : option string) (k : @Re.cont R) (x : R) :
  forall acc prev s,
    Re.lit ignorecase l acc prev s cap k = Some x ->
    exists c p s', k c p s' cap = Some x.
Proof.
  induction l as [|c l IH]; intros acc prev s; simpl; [eauto|].
  destruct s as [|d s]; [discriminate|].
  destruct (Re.char_eq ignorecase c d); [apply IH|discriminate].
Qed.

Lemma rep_from_k (p : ascii -> bool) (cap : option string) (k : @Re.cont R) (x : R) :
  forall s lo hi acc prev,
    Re.rep p lo hi acc prev s cap k = Some x ->
    exists c q s', k c q s' cap = Some x.
Proof.
  induction s as [|c s IH]; intros lo hi acc prev; simpl.
  - destruct (lo =? 0); [eauto|discriminate].
  - destruct (p c && Re.may_take hi).
    + destruct (Re.rep p (Nat.pred lo) (option_map Nat.pred hi) (Re.snoc acc c)
                  (Some c) s cap k) eqn:E.
      * intros H. inversion H; subst. eapply IH. exact E.
      * destruct (lo =? 0); [eauto|discriminate].
    + destruct (lo =? 0); [eauto|discriminate].
Qed.

Lemma m_from_k (r : Re.regex) (x : R) :
  forall prev s cap (k : @Re.cont R),
    Re.m ignorecase r prev s cap k = Some x ->
    exists c p s' cap', k c p s' cap' = Some x.
Proof.
  induction r as [l|p lo hi|r1 IH1 r2 IH2|r1 IH1 r2 IH2|r1 IH1|];
    intros prev s cap k; simpl.
  - intros H. destruct (lit_from_k _ _ _ _ _ _ _ H) as (c & q & s' & Hk). eauto.
  - intros H. destruct (rep_from_k _ _ _ _ _ _ _ _ _ H) as (c & q & s' & Hk). eauto.
  - intros H. destruct (IH1 _ _ _ _ H) as (c1 & p1 & s1 & cap1 & H1).
    destruct (IH2 _ _ _ _ H1) as (c2 & p2 & s2 & cap2 & H2). eauto.
  - destruct (Re.m ignorecase r1 prev s cap k) eqn:E.
    + intros H. inversion H; subst. eapply IH1. exact E.
    + apply IH2.
  - intros H. destruct (IH1 _ _ _ _ H) as (c & p & s' & cap' & Hk). eauto.
  - destruct (xorb _ _); [eauto|discriminate].
Qed.

End Captures.

Lemma match_here_group1 ignorecase r prev s mo :
  captures r = true ->
  Re.match_here ignorecase r prev s = Some mo ->
  exists g, Re.group1 mo = Some g.
Proof.
  intros Hc. unfold Re.match_here. rewrite m_captured by now left.
  intros H. destruct (m_from_k _ _ _ _ _ _ _ H) as (c & p & s' & cap' & Hk).
  unfold only_captured in Hk. destruct cap' as [g|]; [|discriminate].
  inversion Hk; subst. simpl. eauto.
Qed.

Lemma search_from_group1 ignorecase r mo :
  captures r = true ->
  forall s prev,
    Re.search_from ignorecase r prev s = Some mo ->
    exists g, Re.group1 mo = Some g.
Proof.
  intros Hc. induction s as [|c s IH]; intros prev; simpl.
  - destruct (Re.match_here ignorecase r prev "") eqn:E; [|discriminate].
    intros H. inversion H; subst. eapply match_here_group1; eauto.
  - destruct (Re.match_here ignorecase r prev (String c s)) eqn:E.
    + intros H. inversion H; subst. eapply match_here_group1; eauto.
    + apply IH.
Qed.

Lemma first_search_group1 patterns text mo :
  forallb captures patterns = true ->
  first_search patterns text = Some mo ->
  exists g, Re.group1 mo = Some g.
Proof.
  induction patterns as [|p ps IH]; simpl; [discriminate|].
  intros Hc. apply andb_true_iff in Hc. destruct Hc as [Hp Hps].
  destruct (Re.search p text) eqn:E.
  - intros H. inversion H; subst. eapply search_from_group1; eauto.
  - now apply IH.
Qed.

Lemma extract_phone_returns page_content :
  exists phone, extract_phone page_content = Ok phone.
Proof.
  unfold extract_phone, group1_strip.
  destruct (first_search phone_patterns page_content) as [mo|] eqn:E; [|eauto].
  destruct (first_search_group1 phone_patterns page_content mo eq_refl E)
    as (g & Hg).
  rewrite Hg. eauto.
Qed.

Lemma extract_address_returns page_content :
  exists address, extract_address page_content = Ok address.
Proof.
  unfold extract_address, group1_strip.
  destruct (first_search address_patterns page_content) as [mo|] eqn:E; [|eauto].
  destruct (first_search_group1 address_patterns page_content mo eq_refl E)
    as (g & Hg).
  rewrite Hg. eauto.
Qed.

(** X12. Extraction from a detail view fails only as a whole and only for
    two reasons: [extract_business_details] never raises, and it returns no
    record exactly when neither panel marker appears or the page content
    cannot be read.  Otherwise it returns a record under the given name,
    without URL, whose phone, address and rating are what the patterns find
    in the content (or [None]): no pattern match makes [group(1)] fail, and
    an exception while probing for the website does not cost the record. *)
Theorem extract_business_details_fails_only_on_load
    (w : DetailWorld) (business_name : string) (s : Scraper) :
  exists r s',
    extract_business_details w business_name s = (Ok r, s')
    /\ match r with
       | Some b =>
           main_appears w || xpdopen_appears w = true
           /\ exists page_content,
                content w = Ok page_content
                /\ Business.name b = Some business_name
                /\ extract_phone page_content = Ok (Business.phone b)
                /\ extract_address page_content = Ok (Business.address b)
                /\ Business.rating b = extract_rating page_content
                /\ Business.gbp_url b = None
                /\ Business.website_url b = None
       | None =>
           main_appears w || xpdopen_appears w = false
           \/ exists e, content w = Raise e
       end.
Proof.
  unfold extract_business_details, try_except, bind, lift, logger, modify, ret,
    raise.
  assert (Hw : forall t, exists b t',
             website_indicator (website_selectors w) t = (b, t')).
  { intros t. destruct (website_indicator (website_selectors w) t). eauto. }
  destruct (main_appears w), (xpdopen_appears w); simpl;
    try (eexists None, _; split; [reflexivity|left; reflexivity]);
    (destruct (content w) as [page_content|e]; simpl;
     [|eexists None, _; split; [reflexivity|right; eauto]];
     destruct (extract_phone_returns page_content) as (phone & Hp);
     destruct (extract_address_returns page_content) as (address & Ha);
     rewrite Hp, Ha; simpl;
     destruct (Hw s) as ([b|e] & t' & Hi); rewrite Hi; simpl;
     eexists (Some _), _; (split; [reflexivity|]); simpl;
     (split; [reflexivity|]); exists page_content; repeat split; assumption).
Qed.

(** ** The general-business scraper: query and run *)

Section GeneralFrame.
Context {X : Type} (f : Scraper -> X).
Hypothesis f_log : forall l s, f (set_log l s) = f s.
Hypothesis f_trace : forall t s, f (set_trace t s) = f s.
Hypothesis f_count : forall n s, f (set_request_count n s) = f s.
Hypothesis f_working : forall r s, f (set_working r s) = f s.
Hypothesis f_committed : forall r s, f (set_committed r s) = f s.
Hypothesis f_new : forall n s, f (set_new_businesses_added n s) = f s.
Hypothesis f_without : forall n s, f (set_businesses_without_websites n s) = f s.
Hypothesis f_found : forall n s, f (set_businesses_found n s) = f s.

Ltac frame :=
  repeat first
    [ keeps_step
    | apply keeps_modify; intros ?; solve [auto] ].

Lemma keeps_website_indicator found : keeps f (website_indicator found).
Proof.
  induction found as [|[[|]|e] rest IH]; simpl; unfold logger; frame.
Qed.

Lemma keeps_extract_business_details w business_name :
  keeps f (extract_business_details w business_name).
Proof.
  unfold extract_business_details, logger.
  apply keeps_try_except; [|intros e; frame].
  apply keeps_bind; [frame|intros _].
  apply keeps_bind; [frame|intros page_content].
  apply keeps_bind; [frame|intros phone].
  apply keeps_bind; [frame|intros address].
  apply keeps_bind; [|intros has_website; frame].
  apply keeps_try_except; [apply keeps_website_indicator|intros e; frame].
Qed.

Lemma keeps_visit_listing element location category i :
  keeps f (visit_listing element location category i).
Proof.
  unfold visit_listing, logger.
  apply keeps_bind; [frame|intros _].
  apply keeps_bind; [frame|intros _].
  apply keeps_bind; [apply keeps_extract_business_details|intros business].
  apply keeps_bind; [|intros _; frame].
  destruct business as [b|]; [|frame].
  apply keeps_bind; [|intros _; frame].
  apply keeps_save_business_store_free; assumption.
Qed.

Lemma keeps_process_listing w location category i :
  keeps f (process_listing w location category i).
Proof.
  unfold process_listing, query_selector_all, index, emit, logger.
  apply keeps_try_except; [|intros e; frame].
  apply keeps_bind; [frame|intros current_elements].
  destruct (List.length current_elements <=? i); [frame|].
  apply keeps_bind; [frame|intros element].
  apply keeps_bind; [apply keeps_visit_listing|intros _]. frame.
Qed.

Lemma keeps_for_range (body : nat -> M Scraper bool) n :
  (forall i, keeps f (body i)) -> forall i, keeps f (for_range n i body).
Proof.
  intros Hb. induction n as [|n IH]; intros i; simpl; [apply keeps_ret|].
  apply keeps_bind; [apply Hb|intros []]; [apply IH|apply keeps_ret].
Qed.

Lemma keeps_process_listings w location category :
  keeps f (process_listings w location category).
Proof.
  unfold process_listings. apply keeps_for_range. intros i.
  apply keeps_process_listing.
Qed.

Lemma keeps_pages_loop max_pages pages location category :
  forall page_count,
    keeps f (GeneralBusiness.pages_loop max_pages page_count pages location category).
Proof.
  induction pages as [p|p|p c l rest IH]; intros page_count; simpl;
    (destruct (page_count <? max_pages); [|apply keeps_ret]);
    unfold logger;
    (apply keeps_bind; [frame|intros _]);
    (apply keeps_bind; [frame|intros _]);
    (apply keeps_bind; [frame|intros _]);
    (apply keeps_bind; [apply keeps_process_listings|intros _]);
    (destruct (S page_count <? max_pages); [|apply keeps_ret]);
    try (frame; fail).
  apply keeps_bind; [frame|intros _].
  apply keeps_bind; [apply keeps_click_next_page; assumption|intros _].
  apply keeps_bind; [apply keeps_polite_delay; assumption|intros _].
  apply IH.
Qed.

Lemma keeps_search_businesses_and_save mode_config w location category :
  keeps f (GeneralBusiness.search_businesses_and_save mode_config w location category).
Proof.
  unfold GeneralBusiness.search_businesses_and_save, logger, emit.
  apply keeps_bind; [frame|intros _].
  apply keeps_try_except; [|intros e; frame].
  apply keeps_bind; [apply keeps_check_session_break; assumption|intros _].
  apply keeps_bind; [frame|intros _].
  apply keeps_bind; [frame|intros _].
  apply keeps_bind; [apply keeps_polite_delay; assumption|intros _].
  destruct (GeneralBusiness.marker_appears w); [|frame].
  apply keeps_bind; [apply keeps_pages_loop|intros _]. frame.
Qed.

Lemma keeps_general_crawl mode_config w locations categories :
  keeps f (GeneralBusiness.crawl mode_config w locations categories).
Proof.
  unfold GeneralBusiness.crawl.
  apply keeps_for_each. intros location.
  apply keeps_for_each. intros category.
  apply keeps_bind; [apply keeps_search_businesses_and_save|intros _].
  apply keeps_polite_delay; assumption.
Qed.

End GeneralFrame.

Lemma search_businesses_and_save_returns mode_config w location category s :
  exists s',
    GeneralBusiness.search_businesses_and_save mode_config w location category s
    = (Ok tt, s').
Proof.
  unfold GeneralBusiness.search_businesses_and_save.
  unfold bind at 1, logger at 1, modify at 1, try_except.
  match goal with |- context [match ?body ?t with _ => _ end] =>
    destruct (body t) as [[[]|[|msg]] s1] end; eexists; reflexivity.
Qed.

Lemma general_crawl_returns mode_config w locations categories s :
  exists s', GeneralBusiness.crawl mode_config w locations categories s = (Ok tt, s').
Proof.
  revert s. unfold GeneralBusiness.crawl.
  apply for_each_returns. intros location.
  apply for_each_returns. intros category s. unfold bind.
  destruct (search_businesses_and_save_returns mode_config
              (GeneralBusiness.query w location category) location category s)
    as (s1 & H1).
  rewrite H1. eexists. reflexivity.
Qed.

(** X13. In the general-business scraper nothing the browser or the saves do
    stops a run: a query never raises, so once the setup is done and when
    the closing calls succeed, [run_scrape] returns normally whenever the
    ledger accepts an update.  The run is recorded as [completed] when the
    first update is accepted; when it is refused and the second is accepted,
    as [partial] with the error text, and the exception is swallowed.  Both
    rows carry the final counters, and the four handles are closed. *)
Theorem general_run_returns_completed_or_partial
    (mode_config : ModeConfig) (w : GeneralBusiness.RunWorld)
    (locations categories : option (list string)) (s : Scraper) :
  GeneralBusiness.start w = Started ->
  GeneralBusiness.connect_raises w = false ->
  GeneralBusiness.create_run_raises w = false ->
  GeneralBusiness.closing w = closes_ok ->
  GeneralBusiness.update_completed_raises w
  && GeneralBusiness.update_partial_raises w = false ->
  exists s',
    GeneralBusiness.run_scrape mode_config w locations categories s = (Ok tt, s')
    /\ handles s' = (Closed, Closed, Closed, Closed)
    /\ scrape_runs s'
       = scrape_runs s
         ++ [if GeneralBusiness.update_completed_raises w
             then ledger_row partial
                    (Some ("Partial results saved. Error: "
                           ++ str_of_exn db_error)%string) s'
             else ledger_row completed None s'].
Proof.
  intros Hs Hc Hr Hcl Hup. unfold GeneralBusiness.run_scrape.
  rewrite Hs, Hc, Hr, Hcl.
  unfold init_browser, init_database, create_scrape_run.
  unfold bind at 1, modify at 1. unfold bind at 1. unfold bind at 1.
  unfold modify at 1, bind at 1, logger at 1, modify at 1.
  unfold bind at 1, logger at 1, modify at 1.
  unfold bind at 1. unfold bind at 1, gets at 1. unfold bind at 1, modify at 1.
  unfold ret at 1. unfold try_finally, try_except. unfold bind at 1.
  match goal with |- context [GeneralBusiness.crawl mode_config w ?L ?C ?t] =>
    set (s1 := t);
    assert (Hk : handles (snd (GeneralBusiness.crawl mode_config w L C s1))
                 = handles s1)
      by (apply keeps_general_crawl; reflexivity);
    assert (Hl : scrape_runs (snd (GeneralBusiness.crawl mode_config w L C s1))
                 = scrape_runs s1)
      by (apply (keeps_general_crawl scrape_runs); reflexivity);
    destruct (general_crawl_returns mode_config w L C s1) as (sc & Hcr)
  end.
  rewrite Hcr in *. cbn [fst snd] in Hk, Hl.
  assert (Hopen : handles sc = (Open, Open, Open, Open)) by exact Hk.
  assert (Hrows : scrape_runs sc
                  = scrape_runs s ++ [Run.mk running 0 0 0 None]).
  { rewrite Hl. reflexivity. }
  clearbody s1. clear Hk Hl Hcr.
  unfold update_scrape_run, bind, logger, modify, raise, db_error.
  destruct (GeneralBusiness.update_completed_raises w); simpl in Hup;
    [rewrite Hup|]; cbn [str_of_exn];
    match goal with |- context [cleanup closes_ok ?t] =>
      assert (Ho : handles t = (Open, Open, Open, Open)) by exact Hopen;
      destruct (cleanup_from_open closes_ok t Ho) as (Hah & Hres);
      pose proof (keeps_cleanup scrape_runs closes_ok
                    (fun _ _ _ _ _ => eq_refl) t) as Kr;
      pose proof (keeps_cleanup store closes_ok
                    (fun _ _ _ _ _ => eq_refl) t) as Ks;
      destruct (cleanup closes_ok t) as [rc s'] end;
    cbn [fst snd] in *; subst rc; exists s';
    (split; [reflexivity|]); (split; [exact Hah|]);
    rewrite Kr; cbn [scrape_runs set_scrape_runs set_log];
    rewrite Hrows, replace_nth_last; f_equal; f_equal;
    unfold ledger_row; unfold store in Ks; cbn in Ks;
    inversion Ks as [[H1 H2 H3 H4 H5]]; now rewrite H3, H4, H5.
Qed.

Lemma general_run_returns_completed_or_partial_witness :
  exists s1 s2,
    GeneralBusiness.run_scrape test_mode (general_run false)
      (Some ["Joliet, IL"]) (Some ["business"]) new_scraper = (Ok tt, s1)
    /\ map Run.status (scrape_runs s1) = [completed]
    /\ GeneralBusiness.run_scrape test_mode (general_run true)
         (Some ["Joliet, IL"]) (Some ["business"]) new_scraper = (Ok tt, s2)
    /\ map Run.status (scrape_runs s2) = [partial].
Proof.
  destruct (general_run_returns_completed_or_partial test_mode
              (general_run false) (Some ["Joliet, IL"]) (Some ["business"])
              new_scraper) as (s1 & H1 & _ & R1); try reflexivity.
  destruct (general_run_returns_completed_or_partial test_mode
              (general_run true) (Some ["Joliet, IL"]) (Some ["business"])
              new_scraper) as (s2 & H2 & _ & R2); try reflexivity.
  exists s1, s2. repeat split; try assumption.
  - rewrite R1. reflexivity.
  - rewrite R2. reflexivity.
Defined.

(** ** The general-business scraper: the request counter *)

Section GeneralTraceLogic.
Variable R : nat -> list event -> nat -> Prop.
Hypothesis R_nil : forall n, R n [] n.
Hypothesis R_app : forall n evs1 m evs2 k,
  R n evs1 m -> R m evs2 k -> R n (evs1 ++ evs2) k.
Hypothesis R_requery : forall k n, R n [Requery k] n.
Hypothesis R_index : forall i k n, R n [Index i k] n.

Lemma follows_process_listing w location category i :
  follows R (process_listing w location category i).
Proof.
  unfold process_listing, query_selector_all, index.
  apply follows_try_except; [assumption| |].
  - apply follows_bind; [assumption| |intros current_elements].
    + apply follows_bind; [assumption| |intros current_elements].
      * apply follows_keeps; [assumption|apply keeps_lift|apply keeps_lift].
      * apply follows_bind; [assumption| |intros _].
        -- apply follows_emit, R_requery.
        -- apply follows_keeps; [assumption|apply keeps_ret|apply keeps_ret].
    + destruct (List.length current_elements <=? i).
      * apply follows_keeps; [assumption|apply keeps_ret|apply keeps_ret].
      * apply follows_bind; [assumption| |intros element].
        -- apply follows_bind; [assumption| |intros _].
           ++ apply follows_emit, R_index.
           ++ destruct (nth_error current_elements i);
                apply follows_keeps; try assumption; keeps_tac.
        -- apply follows_bind; [assumption| |intros _].
           ++ apply follows_keeps; [assumption| |];
                apply keeps_visit_listing; reflexivity.
           ++ apply follows_keeps; [assumption|apply keeps_ret|apply keeps_ret].
  - intros e. apply follows_bind; [assumption| |intros _].
    + apply follows_logger; assumption.
    + apply follows_keeps; [assumption|apply keeps_ret|apply keeps_ret].
Qed.

Lemma follows_process_listings w location category :
  follows R (process_listings w location category).
Proof.
  unfold process_listings. apply follows_for_range; try assumption.
  intros i. apply follows_process_listing.
Qed.

Hypothesis R_wait : forall n, R n [Wait] n.
Hypothesis R_request : follows R (bind check_session_break (fun _ => emit Nav)).

Lemma follows_pages_loop max_pages pages location category :
  forall page_count,
    follows R (GeneralBusiness.pages_loop max_pages page_count pages
                 location category).
Proof.
  induction pages as [p|p|p c l rest IH]; intros page_count; simpl;
    (destruct (page_count <? max_pages);
     [|apply follows_keeps; [assumption|apply keeps_ret|apply keeps_ret]]);
    (apply follows_bind; [assumption|apply follows_logger; assumption|intros _]);
    (apply follows_bind; [assumption|apply follows_raise_if; assumption|intros _]);
    (apply follows_bind; [assumption|apply follows_logger; assumption|intros _]);
    (apply follows_bind; [assumption|apply follows_process_listings|intros _]);
    (destruct (S page_count <? max_pages);
     [|apply follows_keeps; [assumption|apply keeps_ret|apply keeps_ret]]).
  - apply follows_keeps; [assumption|apply keeps_ret|apply keeps_ret].
  - apply follows_keeps; [assumption|apply keeps_raise|apply keeps_raise].
  - apply follows_bind; [assumption|apply follows_logger; assumption|intros _].
    apply follows_bind; [assumption| |intros _].
    + unfold click_next_page. apply follows_request; try assumption.
      apply follows_bind; [assumption|apply follows_raise_if; assumption|intros _].
      apply follows_raise_if; assumption.
    + apply follows_bind;
        [assumption|apply follows_polite_delay; assumption|intros _].
      apply IH.
Qed.

Lemma follows_search_businesses_and_save mode_config w location category :
  follows R (GeneralBusiness.search_businesses_and_save mode_config w
               location category).
Proof.
  unfold GeneralBusiness.search_businesses_and_save.
  apply follows_bind; [assumption|apply follows_logger; assumption|intros _].
  apply follows_try_except; [assumption| |].
  - apply follows_request; try assumption.
    apply follows_bind; [assumption| |intros _].
    { destruct (GeneralBusiness.goto_raises w);
        apply follows_keeps; try assumption; keeps_tac. }
    apply follows_bind;
      [assumption|apply follows_polite_delay; assumption|intros _].
    destruct (GeneralBusiness.marker_appears w).
    + apply follows_bind; [assumption|apply follows_pages_loop|intros _].
      apply follows_logger; assumption.
    + apply follows_logger; assumption.
  - intros e. destruct e; apply follows_logger; assumption.
Qed.

Lemma follows_general_crawl mode_config w locations categories :
  follows R (GeneralBusiness.crawl mode_config w locations categories).
Proof.
  unfold GeneralBusiness.crawl.
  apply follows_for_each; try assumption. intros location.
  apply follows_for_each; try assumption. intros category.
  apply follows_bind;
    [assumption|apply follows_search_businesses_and_save|intros _].
  apply follows_polite_delay; assumption.
Qed.

Lemma follows_general_run_scrape mode_config w locations categories :
  follows R (GeneralBusiness.run_scrape mode_config w locations categories).
Proof.
  unfold GeneralBusiness.run_scrape.
  apply follows_bind; [assumption| |intros _].
  { apply follows_keeps; [assumption| |]; unfold init_browser;
      destruct (GeneralBusiness.start w); keeps_tac. }
  apply follows_bind; [assumption| |intros _].
  { apply follows_keeps; [assumption| |]; unfold init_database, logger;
      keeps_tac. }
  apply follows_bind; [assumption|apply follows_logger; assumption|intros _].
  apply follows_bind; [assumption| |intros run_id].
  { apply follows_keeps; [assumption| |];
      apply keeps_create_scrape_run; reflexivity. }
  apply follows_try_finally;
    [assumption| |apply follows_cleanup; assumption].
  apply follows_try_except; [assumption| |intros e].
  - apply follows_bind; [assumption|apply follows_general_crawl|intros _].
    apply follows_update_scrape_run; assumption.
  - apply follows_bind; [assumption|apply follows_logger; assumption|intros _].
    apply follows_update_scrape_run; assumption.
Qed.

End GeneralTraceLogic.

(** X14. In the general-business scraper only the search request of a query
    and the clicks on the next-page link count as requests: through a whole
    run, in every world, the navigations issued, counted from the counter's
    start, are ten per session break plus the counter's final value, and the
    counter stays below REQUESTS_PER_SESSION.  The visits of the listings
    (up to 20 clicks and returns per page) neither advance the counter nor
    take a session break. *)
Theorem general_run_counts_requests_in_tens
    (mode_config : ModeConfig) (w : GeneralBusiness.RunWorld)
    (locations categories : option (list string)) (s : Scraper) :
  request_count s < REQUESTS_PER_SESSION ->
  exists evs,
    trace (snd (GeneralBusiness.run_scrape mode_config w locations categories s))
    = trace s ++ evs
    /\ request_count s + navs evs
       = REQUESTS_PER_SESSION * breaks evs
         + request_count
             (snd (GeneralBusiness.run_scrape mode_config w locations
                     categories s))
    /\ request_count
         (snd (GeneralBusiness.run_scrape mode_config w locations categories s))
       < REQUESTS_PER_SESSION.
Proof.
  intros Hn.
  destruct (follows_general_run_scrape accounted accounted_nil accounted_app
              (fun k n => accounted_nil n) (fun i k n => accounted_nil n)
              accounted_wait accounted_request mode_config w
              locations categories s) as (evs & Ht & Ha).
  exists evs. split; [exact Ht|]. exact (Ha Hn).
Qed.

Lemma general_run_counts_requests_in_tens_witness :
  exists evs,
    trace (snd (GeneralBusiness.run_scrape full_mode (general_run false)
                  None None new_scraper)) = evs
    /\ navs evs = 10 * breaks evs
                  + request_count
                      (snd (GeneralBusiness.run_scrape full_mode
                              (general_run false) None None new_scraper)).
Proof.
  destruct (general_run_counts_requests_in_tens full_mode
              (general_run false) None None new_scraper)
    as (evs & Ht & Ha & _).
  - unfold REQUESTS_PER_SESSION. simpl. lia.
  - exists evs. split; [exact Ht|exact Ha].
Defined.

(** ** The general-business scraper: every pair is searched *)

















(** ** The general-business scraper: what a failed query keeps *)

Section StoreOnly.

Lemma store_only_ret {A} (a : A) : store_only (ret a).
Proof. intros s t H. split; [reflexivity|exact H]. Qed.

Lemma store_only_raise {A} (e : exn) : store_only (@raise Scraper A e).
Proof. intros s t H. split; [reflexivity|exact H]. Qed.

Lemma store_only_lift {A} (r : result A) : store_only (lift r).
Proof. intros s t H. split; [reflexivity|exact H]. Qed.

Lemma store_only_modify (g : Scraper -> Scraper) :
  (forall s t, store s = store t -> store (g s) = store (g t)) ->
  store_only (modify g).
Proof. intros Hg s t H. split; [reflexivity|apply Hg, H]. Qed.

Lemma store_only_db_call (raises : bool) (g : Scraper -> Scraper) :
  (forall s t, store s = store t -> store (g s) = store (g t)) ->
  store_only (db_call raises g).
Proof.
  intros Hg s t H. unfold db_call.
  destruct raises; (split; [reflexivity|]); [exact H|apply Hg, H].
Qed.

Lemma store_only_select_one w cond : store_only (select_one w cond).
Proof.
  intros s t H. unfold select_one. destruct (select_raises w); simpl.
  - split; [reflexivity|exact H].
  - split; [|exact H]. unfold store in H. now inversion H.
Qed.

Lemma store_only_bind {A B} (c : M Scraper A) (k : A -> M Scraper B) :
  store_only c -> (forall a, store_only (k a)) -> store_only (bind c k).
Proof.
  intros Hc Hk s t H. unfold bind. destruct (Hc s t H) as (Hr & Hs).
  destruct (c s) as [r1 s1], (c t) as [r2 t1]. simpl in *. subst r2.
  destruct r1 as [a|e]; [apply Hk, Hs|].
  split; [reflexivity|exact Hs].
Qed.

Lemma store_only_try_except {A} (body : M Scraper A)
    (handler : exn -> M Scraper A) :
  store_only body -> (forall e, store_only (handler e)) ->
  store_only (try_except body handler).
Proof.
  intros Hb Hh s t H. unfold try_except. destruct (Hb s t H) as (Hr & Hs).
  destruct (body s) as [r1 s1], (body t) as [r2 t1]. simpl in *. subst r2.
  destruct r1 as [a|e]; [|apply Hh, Hs].
  split; [reflexivity|exact Hs].
Qed.

End StoreOnly.

Ltac stored :=
  let s := fresh "s" in let t := fresh "t" in let H := fresh "H" in
  intros s t H; unfold store in *; simpl in *; inversion H; congruence.

Ltac store_step :=
  first
    [ apply store_only_ret | apply store_only_raise | apply store_only_lift
    | apply store_only_select_one
    | apply store_only_bind; [|intros ?]
    | apply store_only_try_except; [|intros ?]
    | apply store_only_modify; stored
    | apply store_only_db_call; stored
    | match goal with
      | |- store_only (if ?b then _ else _) => destruct b
      | |- store_only (match ?x with _ => _ end) => destruct x
      end ].

Lemma store_only_save_business w business location category :
  store_only (save_business w business location category).
Proof.
  unfold save_business, execute_write, commit, rollback, logger.
  repeat store_step.
Qed.

Lemma store_only_website_indicator found : store_only (website_indicator found).
Proof.
  induction found as [|[[|]|e] rest IH]; simpl; unfold logger;
    repeat store_step; exact IH.
Qed.

Lemma store_only_extract_business_details w business_name :
  store_only (extract_business_details w business_name).
Proof.
  unfold extract_business_details, logger.
  apply store_only_try_except; [|intros e; repeat store_step].
  apply store_only_bind; [repeat store_step|intros _].
  apply store_only_bind; [repeat store_step|intros page_content].
  apply store_only_bind; [repeat store_step|intros phone].
  apply store_only_bind; [repeat store_step|intros address].
  apply store_only_bind; [|intros has_website; repeat store_step].
  apply store_only_try_except;
    [apply store_only_website_indicator|intros e; repeat store_step].
Qed.

Lemma store_only_process_listing w location category i :
  store_only (process_listing w location category i).
Proof.
  unfold process_listing, query_selector_all, index, emit, logger.
  apply store_only_try_except; [|intros e; repeat store_step].
  apply store_only_bind; [repeat store_step|intros current_elements].
  destruct (List.length current_elements <=? i); [apply store_only_ret|].
  apply store_only_bind; [repeat store_step|intros element].
  apply store_only_bind; [|intros _; apply store_only_ret].
  unfold visit_listing, logger.
  apply store_only_bind; [repeat store_step|intros _].
  apply store_only_bind; [repeat store_step|intros _].
  apply store_only_bind;
    [apply store_only_extract_business_details|intros business].
  apply store_only_bind; [|intros _; repeat store_step].
  destruct business as [b|]; [|apply store_only_ret].
  apply store_only_bind; [apply store_only_save_business|intros _].
  apply store_only_modify. stored.
Qed.

Lemma store_only_for_range (body : nat -> M Scraper bool) n :
  (forall i, store_only (body i)) -> forall i, store_only (for_range n i body).
Proof.
  intros Hb. induction n as [|n IH]; intros i; simpl; [apply store_only_ret|].
  apply store_only_bind; [apply Hb|intros []];
    [apply IH|apply store_only_ret].
Qed.

Lemma store_only_process_listings w location category :
  store_only (process_listings w location category).
Proof.
  unfold process_listings. apply store_only_for_range. intros i.
  apply store_only_process_listing.
Qed.

(** X16. The general-business scraper saves as it goes: when the click on
    the next-page link (or the load after it) fails after the first results
    page, the query still returns normally, and what is committed and
    counted is exactly what processing the listings of the first page
    commits and counts; nothing saved before the failure is lost. *)
Theorem failed_next_page_keeps_saved_listings
    (mode_config : ModeConfig) (w : GeneralBusiness.QueryWorld)
    (location category : string) (s : Scraper)
    (p : GeneralBusiness.ResultPage) (click_raises load_raises : bool)
    (rest : GeneralBusiness.ResultPages) (max_pages : nat) :
  GeneralBusiness.goto_raises w = None ->
  GeneralBusiness.marker_appears w = true ->
  GeneralBusiness.pages w
  = GeneralBusiness.FollowedPage p click_raises load_raises rest ->
  GeneralBusiness.links_raise p = false ->
  mode_max_pages mode_config = Some max_pages ->
  2 <= max_pages ->
  click_raises || load_raises = true ->
  exists s',
    GeneralBusiness.search_businesses_and_save mode_config w location category s
    = (Ok tt, s')
    /\ store s'
       = store (snd (process_listings (GeneralBusiness.listings p)
                       location category s)).
Proof.
  intros Hg Hm Hp Hl Hx Hn Hc.
  unfold GeneralBusiness.search_businesses_and_save.
  rewrite Hg, Hm, Hp, Hx.
  unfold bind at 1, logger at 1, modify at 1, try_except.
  unfold bind at 1.
  match goal with |- context [check_session_break ?t] =>
    pose proof (keeps_check_session_break store
                  (fun _ _ => eq_refl) (fun _ _ => eq_refl)
                  (fun _ _ => eq_refl) t) as K1;
    destruct (check_session_break_trace t) as (s1 & evs0 & Hk & _) end.
  rewrite Hk in *. cbn [snd] in K1.
  unfold bind at 1, emit at 1, modify at 1. unfold bind at 1, ret at 1.
  unfold bind at 1.
  match goal with |- context [polite_delay ?t] =>
    pose proof (keeps_polite_delay store
                  (fun _ _ => eq_refl) (fun _ _ => eq_refl) t) as K2;
    destruct (polite_delay_trace t) as (s2 & Hd & _) end.
  rewrite Hd in *. cbn [snd] in K2.
  assert (E2 : store s2 = store s) by (rewrite K2; exact K1).
  clear K1 K2 Hk Hd.
  unfold bind at 1. cbn [GeneralBusiness.pages_loop GeneralBusiness.this_page].
  assert (H0 : (0 <? max_pages) = true) by (apply Nat.ltb_lt; lia).
  assert (H1 : (1 <? max_pages) = true) by (apply Nat.ltb_lt; lia).
  rewrite H0, H1, Hl.
  unfold bind at 1, logger at 1, modify at 1.
  unfold bind at 1, ret at 1.
  unfold bind at 1, logger at 1, modify at 1.
  unfold bind at 1.
  match goal with |- context [process_listings ?lw location category ?t] =>
    destruct (store_only_process_listings lw location category t s)
      as (_ & E3); [exact E2|];
    destruct (for_range_listings lw location category
                (Nat.min 20 (business_links lw)) 0 t)
      as (s3 & evs3 & Hf & _);
    unfold process_listings in *; rewrite Hf in * end.
  cbn [snd] in E3.
  unfold bind at 1, logger at 1, modify at 1. unfold bind at 1.
  match goal with
  | |- context [click_next_page click_raises load_raises ?t] =>
      pose proof (keeps_click_next_page store
                    (fun _ _ => eq_refl) (fun _ _ => eq_refl)
                    (fun _ _ => eq_refl) click_raises load_raises t) as K4;
      destruct (click_next_page_raises click_raises load_raises t Hc)
        as (s4 & Hcl)
  end.
  rewrite Hcl in *. cbn [snd] in K4.
  eexists. split; [reflexivity|].
  unfold logger, modify. cbn [snd]. rewrite <- E3. exact K4.
Qed.

Lemma failed_next_page_keeps_saved_listings_witness :
  exists s',
    GeneralBusiness.search_businesses_and_save debug_mode next_page_stuck
      "Joliet, IL" "restaurant" new_scraper = (Ok tt, s')
    /\ map Businesses.name (committed s') = [Some "Corner Cafe"]
    /\ businesses_found s' = 1.
Proof.
  destruct (failed_next_page_keeps_saved_listings debug_mode next_page_stuck
              "Joliet, IL" "restaurant" new_scraper
              (GeneralBusiness.mkResultPage false
                 (mkListingsWorld 1 (fun _ => Ok [saved_listing])))
              true false
              (GeneralBusiness.FinalPage
                 (GeneralBusiness.mkResultPage false
                    (mkListingsWorld 0 (fun _ => Ok []))))
              2) as (s' & H & E); try reflexivity.
  exists s'. split; [exact H|].
  unfold store in E. injection E as E1 _ E3 _ _.
  rewrite E1, E3. split; vm_compute; reflexivity.
Defined.
